(** * napari-ome-zarr: the reader plugin [napari_ome_zarr/_reader.py]

    A shallow embedding of the module and the properties of its layer
    transformer.  Python objects that the module may mutate through an
    alias (lists) live in a store and are named by location; everything
    the module only reads or builds afresh is a plain value. *)

From Stdlib Require Import ZArith QArith_base List String Bool Lia.
From stdpp Require Import base option list gmap strings.

Local Open Scope string_scope.
Local Open Scope list_scope.
Local Open Scope Z_scope.

(** ** Exceptions and results *)

Inductive exn : Type :=
| TypeError | IndexError | KeyError | ValueError | AttributeError
| LibraryError (msg : string).

Inductive result (A : Type) : Type :=
| Ok (a : A)
| Raise (e : exn).
Arguments Ok {A} a.
Arguments Raise {A} e.

(** ** Python values *)

Definition loc := nat.

(** A numpy array of floats: its shape and its entries in C order.  The
    entries are only moved around by this module, never computed with. *)
Record ndarray : Type := { shape : list nat; flat : list Q }.

(** The values a metadata mapping may hold.  [C] is the type of the
    objects of vispy's color map classes.  A list is a reference into
    the store.  A color map object is opaque: the module only tests
    [isinstance] on one, and subscripting, iterating or assigning into
    one is taken to raise. *)
Inductive value (C : Type) : Type :=
| VNone
| VBool (b : bool)
| VInt (n : Z)
| VFloat (q : Q)
| VStr (s : string)
| VArray (a : ndarray)
| VColormap (c : C)
| VList (l : loc).
Arguments VNone {C}.
Arguments VBool {C} b.
Arguments VInt {C} n.
Arguments VFloat {C} q.
Arguments VStr {C} s.
Arguments VArray {C} a.
Arguments VColormap {C} c.
Arguments VList {C} l.

(** The store: the items of every list object. *)
Definition deref {C : Type} (st : gmap loc (list (value C))) (l : loc)
  : list (value C) :=
  default [] (st !! l).

(** ** The external collaborators

    [vispy.color] realizes color maps; [ome_zarr.data] fixes the legacy
    channel dimension.  [get_colormap] returns an object of one of
    vispy's color map classes, which need not be an instance of the
    class [Colormap]: [isinstance_Colormap c] is the truth of
    [isinstance(c, Colormap)].  [new_Colormap st cm] is the call
    [Colormap(cm)], which reads its argument in the current store and
    returns an instance of the class. *)
Class External : Type := {
  BaseColormap : Type;
  isinstance_Colormap : BaseColormap -> bool;
  get_colormap : string -> result BaseColormap;
  new_Colormap : gmap loc (list (value BaseColormap)) -> value BaseColormap
                 -> result BaseColormap;
  new_Colormap_instance :
    forall st cm c, new_Colormap st cm = Ok c -> isinstance_Colormap c = true;
  CHANNEL_DIMENSION : Z
}.

(** ** Sequences and indices *)

(** Python's index normalisation on a sequence of length [len]. *)
Definition py_index (len : nat) (i : Z) : option nat :=
  if (0 <=? i) && (i <? Z.of_nat len) then Some (Z.to_nat i)
  else if (- Z.of_nat len <=? i) && (i <? 0) then Some (Z.to_nat (Z.of_nat len + i))
  else None.

(** [t[i]] on a tuple or list value. *)
Definition seq_getitem {A : Type} (l : list A) (i : Z) : result A :=
  match py_index (length l) i with
  | Some k => match l !! k with Some x => Ok x | None => Raise IndexError end
  | None => Raise IndexError
  end.

(** [l[i] = x] on a fresh local list. *)
Definition seq_setitem {A : Type} (l : list A) (i : Z) (x : A) : result (list A) :=
  match py_index (length l) i with
  | Some k => Ok (<[k:=x]> l)
  | None => Raise IndexError
  end.

(** Removing position [k]. *)
Fixpoint delete_at {A : Type} (k : nat) (l : list A) : list A :=
  match l, k with
  | [], _ => []
  | _ :: t, O => t
  | x :: t, S k' => x :: delete_at k' t
  end.

(** The entries of [l] whose mask bit is set (numpy's boolean index). *)
Fixpoint select {A : Type} (mask : list bool) (l : list A) : list A :=
  match mask, l with
  | b :: mask', x :: l' => if b then x :: select mask' l' else select mask' l'
  | _, _ => []
  end.

Definition count_true (mask : list bool) : nat :=
  length (filter (fun b => b = true) mask).

(** [k] consecutive chunks of [n] entries each. *)
Fixpoint chunks {A : Type} (n k : nat) (l : list A) : list (list A) :=
  match k with
  | O => []
  | S k' => take n l :: chunks n k' (drop n l)
  end.

Definition prod_shape (s : list nat) : nat := foldr Nat.mul 1%nat s.

(** ** numpy indexing *)

(** [a[0]]: the first sub-array along axis 0. *)
Definition ndarray_getitem0 (a : ndarray) : result ndarray :=
  match shape a with
  | [] => Raise IndexError
  | O :: _ => Raise IndexError
  | S _ :: rest => Ok {| shape := rest; flat := take (prod_shape rest) (flat a) |}
  end.

(** [a[mask, :]]: boolean selection along axis 0 of an array with at
    least two axes. *)
Definition ndarray_mask_rows (mask : list bool) (a : ndarray) : result ndarray :=
  match shape a with
  | d0 :: d1 :: rest =>
      if (length mask =? d0)%nat then
        Ok {| shape := count_true mask :: d1 :: rest;
              flat := concat (select mask (chunks (prod_shape (d1 :: rest)) d0 (flat a))) |}
      else Raise IndexError
  | _ => Raise IndexError
  end.

(** [a[:, mask]]: boolean selection along axis 1. *)
Definition ndarray_mask_cols (mask : list bool) (a : ndarray) : result ndarray :=
  match shape a with
  | d0 :: d1 :: rest =>
      if (length mask =? d1)%nat then
        Ok {| shape := d0 :: count_true mask :: rest;
              flat := concat (map (fun row => concat (select mask (chunks (prod_shape rest) d1 row)))
                                  (chunks (prod_shape (d1 :: rest)) d0 (flat a))) |}
      else Raise IndexError
  | _ => Raise IndexError
  end.

(** ** Pixel arrays

    A (lazy) n-dimensional pixel array: its shape and its entry at each
    multi-index. *)
Record pixels : Type := { px_shape : list nat; px_at : list nat -> Q }.

(** [d[:, 0, ...]]: index 0 along axis 1, every other axis kept. *)
Definition slice_axis1 (d : pixels) : result pixels :=
  match px_shape d with
  | n0 :: n1 :: rest =>
      if (n1 =? 0)%nat then Raise IndexError
      else Ok {| px_shape := n0 :: rest;
                 px_at := fun idx => match idx with
                                     | [] => px_at d []
                                     | i :: js => px_at d (i :: O :: js)
                                     end |}
  | _ => Raise IndexError
  end.

Fixpoint map_result {A B : Type} (f : A -> result B) (l : list A) : result (list B) :=
  match l with
  | [] => Ok []
  | x :: t => match f x with
              | Ok y => match map_result f t with
                        | Ok ys => Ok (y :: ys)
                        | Raise e => Raise e
                        end
              | Raise e => Raise e
              end
  end.

(** ** The state-and-exception monad of the module *)

Abbreviation val := (value BaseColormap).
Abbreviation store := (gmap loc (list (value BaseColormap))).

#[global] Instance result_ret : MRet result := fun A a => Ok a.
#[global] Instance result_bind : MBind result :=
  fun A B f r => match r with Ok a => f a | Raise e => Raise e end.
#[global] Instance result_fmap : FMap result :=
  fun A B f r => match r with Ok a => Ok (f a) | Raise e => Raise e end.

(** A computation reads and updates the store and either returns or
    raises; the store survives a raise. *)
Definition M `{External} (A : Type) : Type := store -> result A * store.

#[global] Instance M_ret `{External} : MRet M := fun A a st => (Ok a, st).
#[global] Instance M_bind `{External} : MBind M :=
  fun A B f m st => match m st with
                    | (Ok a, st') => f a st'
                    | (Raise e, st') => (Raise e, st')
                    end.

(** A step that only reads the store. *)
Definition reading `{External} {A : Type} (r : store -> result A) : M A :=
  fun st => (r st, st).

(** A pure step that may raise. *)
Definition lift `{External} {A : Type} (r : result A) : M A :=
  fun st => (r, st).

Definition raise `{External} {A : Type} (e : exn) : M A :=
  fun st => (Raise e, st).

(** [try: m except Exception: h] *)
Definition try_except `{External} {A : Type} (m h : M A) : M A :=
  fun st => match m st with
            | (Ok a, st') => (Ok a, st')
            | (Raise _, st') => h st'
            end.

(** [for x in xs: body], threading what the body updates. *)
Fixpoint for_each {T : Type -> Type} `{!MBind T, !MRet T} {A S : Type}
    (xs : list A) (body : A -> S -> T S) (s : S) : T S :=
  match xs with
  | [] => mret s
  | x :: rest => s' ← body x s; for_each rest body s'
  end.

Section Values.
Context `{External}.

(** [isinstance(v, Colormap)] *)
Definition is_Colormap (v : val) : bool :=
  match v with VColormap c => isinstance_Colormap c | _ => false end.

(** [v] is an object of one of vispy's color map classes. *)
Definition is_colormap_object (v : val) : bool :=
  match v with VColormap _ => true | _ => false end.

(** [s == v] for a string [s]; an array compares unequal as a whole. *)
Definition eq_str (s : string) (v : val) : bool :=
  match v with VStr t => String.eqb s t | _ => false end.

Fixpoint find_str (s : string) (items : list val) : option nat :=
  match items with
  | [] => None
  | v :: rest => if eq_str s v then Some O else S <$> find_str s rest
  end.

(** [s in v] *)
Definition py_contains (s : string) (v : val) (st : store) : result bool :=
  match v with
  | VList l => Ok (bool_decide (is_Some (find_str s (deref st l))))
  | VStr t => Ok (bool_decide (is_Some (String.index 0 s t)))
  | VArray _ => Ok false
  | _ => Raise TypeError
  end.

(** [v.index(s)] *)
Definition py_index_of (s : string) (v : val) (st : store) : result Z :=
  match v with
  | VList l => match find_str s (deref st l) with
               | Some k => Ok (Z.of_nat k)
               | None => Raise ValueError
               end
  | VStr t => match String.index 0 s t with
              | Some k => Ok (Z.of_nat k)
              | None => Raise ValueError
              end
  | _ => Raise AttributeError
  end.

(** [v[0]] *)
Definition py_getitem0 (v : val) (st : store) : result val :=
  match v with
  | VList l => match deref st l with
               | x :: _ => Ok x
               | [] => Raise IndexError
               end
  | VStr (String c _) => Ok (VStr (String c EmptyString))
  | VStr EmptyString => Raise IndexError
  | VArray a => VArray <$> ndarray_getitem0 a
  | _ => Raise TypeError
  end.

(** [v[dim_mask, :]] and [v[:, dim_mask]] *)
Definition py_mask_rows (dim_mask : list bool) (v : val) : result val :=
  match v with
  | VArray a => VArray <$> ndarray_mask_rows dim_mask a
  | _ => Raise TypeError
  end.

Definition py_mask_cols (dim_mask : list bool) (v : val) : result val :=
  match v with
  | VArray a => VArray <$> ndarray_mask_cols dim_mask a
  | _ => Raise TypeError
  end.

(** [l[idx] = x] on the list object at [l]. *)
Definition list_setitem (l : loc) (idx : nat) (x : val) : M () :=
  fun st => (Ok (), <[l := <[idx := x]> (deref st l)]> st).
End Values.

(** ** Dictionaries in insertion order

    The property tables are iterated, so their order is kept. *)

Fixpoint dict_set {V : Type} (k : string) (v : V) (d : list (string * V))
  : list (string * V) :=
  match d with
  | [] => [(k, v)]
  | (k', v') :: t => if String.eqb k k' then (k, v) :: t
                     else (k', v') :: dict_set k v t
  end.

Fixpoint dict_get {V : Type} (k : string) (d : list (string * V)) : option V :=
  match d with
  | [] => None
  | (k', v) :: t => if String.eqb k k' then Some v else dict_get k t
  end.

(** [d[k].append(x)] *)
Fixpoint dict_append {V : Type} (k : string) (x : V) (d : list (string * list V))
  : result (list (string * list V)) :=
  match d with
  | [] => Raise KeyError
  | (k', l) :: t => if String.eqb k k' then Ok ((k', l ++ [x]) :: t)
                    else t' ← dict_append k x t; Ok ((k', l) :: t')
  end.

Section Reader.
Context `{External}.

Definition METADATA_KEYS : list string :=
  ["name"; "visible"; "contrast_limits"; "colormap";
   "metadata"; "affine"; "blending"].

(** ** transform_properties *)

(** [{label_id: {key: value}}], and the table by key that is built
    from it. *)
Definition props : Type := list (val * list (string * val)).
Definition columns : Type := list (string * list val).

(** First loop: an empty list for every key of every object. *)
Definition create_lists (p : props) : columns :=
  foldl (fun properties '(label_id, props_dict) =>
           foldl (fun properties key => dict_set key [] properties)
                 properties (map fst props_dict))
        [] p.

(** Second loop, one object: its id under ["index"], then its value
    (or None) under each of [keys]. *)
Definition append_object (keys : list string)
    (object : val * list (string * val)) (properties : columns) : result columns :=
  let '(label_id, props_dict) := object in
  properties ← dict_append "index" label_id properties;
  for_each keys
    (fun key properties =>
       dict_append key (default VNone (dict_get key props_dict)) properties)
    properties.

Definition transform_properties (p : option props) : result (option columns) :=
  match p with
  | None => Ok None
  | Some p =>
      let properties := create_lists p in
      let keys := map fst properties in
      let properties := dict_set "index" [] properties in
      properties ← for_each p (append_object keys) properties;
      Ok (Some properties)
  end.

(** ** Nodes and layer data *)

(** A node of the hierarchy.  [load_Label] is the truth of
    [node.load(Label)].  [metadata] holds the entries of
    [node.metadata] other than ["properties"], which the module only
    reaches through [node.metadata.get("properties")] and which is kept
    apart as [properties]. *)
Record Node : Type := {
  data : option (list pixels);
  load_Label : bool;
  metadata : gmap string val;
  properties : option props
}.

(** The triple [(data, metadata, layer_type)]; the entry
    [metadata["properties"]] is the field [ld_properties]. *)
Record LayerData : Type := {
  ld_data : list pixels;
  ld_metadata : gmap string val;
  ld_properties : option columns;
  ld_layer_type : string
}.

(** [for x in METADATA_KEYS: if x in node.metadata:
       metadata[x] = node.metadata[x]] *)
Definition copy_known (node : Node) (md : gmap string val) : gmap string val :=
  foldl (fun md x => match metadata node !! x with
                     | Some v => <[x := v]> md
                     | None => md
                     end) md METADATA_KEYS.

(** [dim_mask = [True] * 6; dim_mask[channel_axis] = False;
     affine[dim_mask, :][:, dim_mask]] *)
Definition reduce_affine (channel_axis : Z) (affine : result val) : result val :=
  dim_mask ← seq_setitem (replicate 6 true) channel_axis false;
  affine ← affine;
  rows ← py_mask_rows dim_mask affine;
  py_mask_cols dim_mask rows.

(** [metadata["affine"]] *)
Definition getitem_affine (md : gmap string val) : result val :=
  match md !! "affine" with
  | Some v => Ok v
  | None => Raise KeyError
  end.

(** *** The label path *)
Definition label_layer (node : Node) (data : list pixels) (shape : list nat)
  : result (list pixels * gmap string val) :=
  let md := copy_known node ∅ in
  if (length shape =? 5)%nat then
    let channel_axis := 1 in
    affine ← reduce_affine channel_axis (getitem_affine md);
    let md := <["affine" := affine]> md in
    data ← map_result slice_axis1 data;
    Ok (data, md)
  else Ok (data, md).

(** *** The image path *)

Definition channel_axis_of (node : Node) (shape : list nat) : M (option Z) :=
  match metadata node !! "axes" with
  | Some axes =>
      has_c ← reading (py_contains "c" axes);
      if has_c : bool then
        k ← reading (py_index_of "c" axes); mret (Some k)
      else mret None
  | None =>
      size ← lift (seq_getitem shape CHANNEL_DIMENSION);
      if (1 <? size)%nat then mret (Some CHANNEL_DIMENSION) else mret None
  end.

Definition multi_channel (node : Node) (channel_axis : Z) : result (gmap string val) :=
  let md := <["channel_axis" := VInt channel_axis]> ∅ in
  let md := copy_known node md in
  match md !! "affine" with
  | None | Some VNone => Ok md
  | Some affine =>
      affine ← reduce_affine channel_axis (Ok affine);
      Ok (<["affine" := affine]> md)
  end.

(** [try: metadata[x] = node.metadata[x][0]
     except Exception: pass], for a key [x] of [node.metadata] *)
Definition copy_first_item (node : Node) (x : string) (md : gmap string val)
  : M (gmap string val) :=
  match metadata node !! x with
  | Some v =>
      try_except (v0 ← reading (py_getitem0 v); mret (<[x := v0]> md))
                 (mret md)
  | None => mret md
  end.

Definition single_channel (node : Node) : M (gmap string val) :=
  for_each METADATA_KEYS (copy_first_item node) ∅.

Definition image_layer (node : Node) (shape : list nat) : M (gmap string val) :=
  channel_axis ← channel_axis_of node shape;
  match channel_axis with
  | Some channel_axis => lift (multi_channel node channel_axis)
  | None => single_channel node
  end.

(** *** Colormaps *)

(** [get_colormap(cm) if isinstance(cm, str) else Colormap(cm)] *)
Definition realize (cm : val) : M BaseColormap :=
  match cm with
  | VStr s => lift (get_colormap s)
  | _ => reading (fun st => new_Colormap st cm)
  end.

(** The loop over [enumerate(cms)] for the list object at [l], from
    position [idx] on; [items] are the entries not yet visited.  The
    loop writes position [idx] only, after reading it, so the entries
    it has yet to visit are those the list held when it started. *)
Fixpoint colormap_pass (l : loc) (idx : nat) (items : list val) : M () :=
  match items with
  | [] => mret ()
  | cm :: rest =>
      (if is_Colormap cm then mret ()
       else c ← realize cm; list_setitem l idx (VColormap c));;
      colormap_pass l (S idx) rest
  end.

(** [cms = metadata.get("colormap", [])] and the loop over it.  A
    string or an array can be iterated but not assigned into with a
    color map; the other values cannot be iterated. *)
Definition normalize_colormaps (md : gmap string val) : M () :=
  match md !! "colormap" with
  | None => mret ()
  | Some (VList l) => items ← reading (fun st => Ok (deref st l)); colormap_pass l 0 items
  | Some (VStr EmptyString) => mret ()
  | Some (VStr (String c _)) =>
      realize (VStr (String c EmptyString));; raise TypeError
  | Some (VArray a) =>
      match shape a with
      | [] => raise TypeError
      | O :: _ => mret ()
      | S _ :: _ => row ← lift (ndarray_getitem0 a);
                    realize (VArray row);; raise TypeError
      end
  | Some _ => raise TypeError
  end.

(** *** One node of the loop *)

Definition transform_node (node : Node) : M (option LayerData) :=
  match data node with
  | None | Some [] => mret None
  | Some ((d0 :: _) as data) =>
      let shape := px_shape d0 in
      '(data, md, layer_type) ←
        (if load_Label node then
           '(data, md) ← lift (label_layer node data shape);
           mret (data, md, "labels")
         else
           md ← image_layer node shape;
           mret (data, md, "image"));
      normalize_colormaps md;;
      properties ← lift (transform_properties (properties node));
      mret (Some {| ld_data := data; ld_metadata := md;
                    ld_properties := properties;
                    ld_layer_type := layer_type |})
  end.

(** ** transform *)

(** The function [f] that [transform] returns is a closure over the
    iterator [nodes]: its state is what the iterator has yet to
    yield. *)
Record ReaderFunction : Type := { nodes : list Node }.

Definition transform (nodes : list Node) : ReaderFunction := {| nodes := nodes |}.

(** The loop [for node in nodes] with the list [results] built so
    far; it returns what is left of the iterator as well. *)
Fixpoint f_loop (nodes : list Node) (results : list LayerData) (st : store)
  : result (list LayerData) * ReaderFunction * store :=
  match nodes with
  | [] => (Ok results, transform [], st)
  | node :: rest =>
      match transform_node node st with
      | (Ok None, st') => f_loop rest results st'
      | (Ok (Some rv), st') => f_loop rest (results ++ [rv]) st'
      | (Raise e, st') => (Raise e, transform rest, st')
      end
  end.

(** One call of the returned function. *)
Definition f (self : ReaderFunction) (st : store)
  : result (list LayerData) * ReaderFunction * store :=
  f_loop (nodes self) [] st.

(** ** napari_get_reader *)

Inductive PathLike : Type :=
| Path (p : string)
| Paths (ps : list string).

Inductive event : Type :=
| Warn (msg : string)
| ParseUrl (p : string).

(** [parse_url] and [Reader] belong to [ome_zarr]; what is observed of
    a call is the warnings it issues and the paths it has resolved. *)
Definition napari_get_reader {Zarr : Type}
    (parse_url : string -> option Zarr) (Reader : Zarr -> list Node)
    (path : PathLike) : list event * result (option ReaderFunction) :=
  let '(log, path) :=
    match path with
    | Paths ps =>
        let log := if (1 <? length ps)%nat
                   then [Warn "more than one path is not currently supported"]
                   else [] in
        (log, seq_getitem ps 0)
    | Path p => ([], Ok p)
    end in
  match path with
  | Raise e => (log, Raise e)
  | Ok path =>
      let zarr := parse_url path in
      let log := log ++ [ParseUrl path] in
      match zarr with
      | Some zarr => (log, Ok (Some (transform (Reader zarr))))
      | None => (log, Ok None)
      end
  end.
End Reader.

(** ** A stand-in for the collaborators and sample inputs

    The stand-in realizes a name as itself and any color-stop data as
    one fixed map, the only one that is an instance of [Colormap]; the
    legacy channel dimension is that of [ome_zarr.data]. *)

Definition stub : External := {|
  BaseColormap := string;
  isinstance_Colormap := fun c => String.eqb c "custom";
  get_colormap := fun name => Ok name;
  new_Colormap := fun _ _ => Ok "custom";
  new_Colormap_instance :=
    fun _ _ c Hc => match Hc in _ = r
                    return match r with
                           | Ok c => String.eqb c "custom" = true
                           | Raise _ => True
                           end
                    with eq_refl => eq_refl end;
  CHANNEL_DIMENSION := 1
|}.

Definition zeros (s : list nat) : pixels :=
  {| px_shape := s; px_at := fun _ => 0%Q |}.

(** The entries 0 .. 35 in six rows of six. *)
Definition affine6 : ndarray :=
  {| shape := [6; 6]%nat; flat := map inject_Z (seqZ 0 36) |}.

(** [axes = ["t", "c", "z", "y", "x"]] at location 0,
    [colormap = ["viridis", "fire"]] at location 1 and
    [name = ["nuclei"]] at location 2. *)
Definition sample_store : gmap loc (list (value string)) :=
  {[ 0%nat := [VStr "t"; VStr "c"; VStr "z"; VStr "y"; VStr "x"];
     1%nat := [VStr "viridis"; VStr "fire"];
     2%nat := [VStr "nuclei"] ]}.

(** A two-channel image with axes, an affine matrix and colormaps. *)
Definition two_channel_image : @Node stub := {|
  data := Some [zeros [1; 2; 1; 4; 4]%nat];
  load_Label := false;
  metadata := {[ "axes" := VList 0%nat; "colormap" := VList 1%nat;
                 "affine" := VArray affine6 ]};
  properties := None
|}.

(** A legacy image (no axes) with a single channel. *)
Definition legacy_image : @Node stub := {|
  data := Some [zeros [1; 1; 1; 4; 4]%nat];
  load_Label := false;
  metadata := {[ "name" := VList 2%nat; "visible" := VBool true ]};
  properties := None
|}.

(** A 5-dimensional label image, once without and once with an affine
    matrix. *)
Definition labels_without_affine : @Node stub := {|
  data := Some [zeros [1; 1; 1; 4; 4]%nat];
  load_Label := true;
  metadata := {[ "name" := VStr "labels" ]};
  properties := None
|}.

Definition labels_with_affine : @Node stub := {|
  data := Some [zeros [1; 1; 1; 4; 4]%nat];
  load_Label := true;
  metadata := {[ "affine" := VArray affine6 ]};
  properties := None
|}.

Definition no_data : @Node stub := {|
  data := None; load_Label := false; metadata := ∅; properties := None
|}.

Definition empty_data : @Node stub := {|
  data := Some []; load_Label := true; metadata := ∅; properties := None
|}.

(** [{"a": {"x": 1, "y": 2}, "b": {"x": 3}}] *)
Definition sample_props : @props stub :=
  [(VStr "a", [("x", VInt 1); ("y", VInt 2)]); (VStr "b", [("x", VInt 3)])].

(** [{"a": {"index": 7, "x": 1}}] *)
Definition props_with_index_key : @props stub :=
  [(VStr "a", [("index", VInt 7); ("x", VInt 1)])].

(** A legacy image with two channels, and an image whose axes are
    given as one string. *)
Definition legacy_two_channel : @Node stub := {|
  data := Some [zeros [1; 2; 1; 4; 4]%nat];
  load_Label := false;
  metadata := {[ "name" := VList 2%nat ]};
  properties := None
|}.

Definition string_axes_image : @Node stub := {|
  data := Some [zeros [1; 2; 1; 4; 4]%nat];
  load_Label := false;
  metadata := {[ "axes" := VStr "tczyx" ]};
  properties := None
|}.

Definition sample_nodes : list (@Node stub) :=
  [no_data; two_channel_image; empty_data; legacy_image].

(** A store whose colormap list holds instances of [Colormap]. *)
Definition realized_store : gmap loc (list (value string)) :=
  {[ 1%nat := [VColormap "custom"; VColormap "custom"] ]}.

Definition colormap_only : gmap string (value string) :=
  {[ "colormap" := VList 1%nat ]}.

(** ** Further sample inputs *)

(** A two-dimensional label image. *)
Definition labels_2d : @Node stub := {|
  data := Some [zeros [4; 4]%nat];
  load_Label := true;
  metadata := {[ "name" := VStr "cells"; "axes" := VList 0%nat ]};
  properties := Some sample_props
|}.

(** [axes = ["z", "y", "x"]] at location 0. *)
Definition zyx_store : gmap loc (list (value string)) :=
  {[ 0%nat := [VStr "z"; VStr "y"; VStr "x"] ]}.

(** An image that declares its axes, none of them a channel. *)
Definition zyx_image : @Node stub := {|
  data := Some [zeros [3; 4; 4]%nat];
  load_Label := false;
  metadata := {[ "axes" := VList 0%nat ]};
  properties := None
|}.

(** A legacy image whose only array has one dimension. *)
Definition legacy_1d : @Node stub := {|
  data := Some [zeros [8]%nat];
  load_Label := false;
  metadata := ∅;
  properties := None
|}.

(** A single-channel legacy image whose colormaps are given by name. *)
Definition legacy_named_colormap : @Node stub := {|
  data := Some [zeros [1; 1; 1; 4; 4]%nat];
  load_Label := false;
  metadata := {[ "colormap" := VList 1%nat ]};
  properties := None
|}.

Definition failing_nodes : list (@Node stub) :=
  [two_channel_image; no_data; labels_without_affine; legacy_image].

(** [{"a": {"index": 7, "x": 1}, "b": {"x": 2}}] *)
Definition props_with_index_key2 : @props stub :=
  [(VStr "a", [("index", VInt 7); ("x", VInt 1)]); (VStr "b", [("x", VInt 2)])].

(** A stand-in that knows two names only. *)
Definition strict_stub : External := {|
  BaseColormap := string;
  isinstance_Colormap := fun c => String.eqb c "custom";
  get_colormap := fun name =>
    if String.eqb name "viridis" || String.eqb name "fire" then Ok name
    else Raise KeyError;
  new_Colormap := fun _ _ => Ok "custom";
  new_Colormap_instance :=
    fun _ _ c Hc => match Hc in _ = r
                    return match r with
                           | Ok c => String.eqb c "custom" = true
                           | Raise _ => True
                           end
                    with eq_refl => eq_refl end;
  CHANNEL_DIMENSION := 1
|}.

(** [colormap = ["viridis", "magma", "fire"]] at location 1. *)
Definition unknown_name_store : gmap loc (list (value string)) :=
  {[ 1%nat := [VStr "viridis"; VStr "magma"; VStr "fire"] ]}.

(** Color stops from black to red and from black to green. *)
Definition red_stops : ndarray :=
  {| shape := [2; 3]%nat; flat := map inject_Z [0; 0; 0; 1; 0; 0] |}.

Definition green_stops : ndarray :=
  {| shape := [2; 3]%nat; flat := map inject_Z [0; 0; 0; 0; 1; 0] |}.

(** [axes = ["t", "c", "z", "y", "x"]] at location 0 and a colormap list
    of color stops at location 1. *)
Definition stops_store : gmap loc (list (value string)) :=
  {[ 0%nat := [VStr "t"; VStr "c"; VStr "z"; VStr "y"; VStr "x"];
     1%nat := [VArray red_stops; VArray green_stops] ]}.

(** A two-channel image whose colormaps are given as color stops. *)
Definition stops_image : @Node stub := {|
  data := Some [zeros [1; 2; 1; 4; 4]%nat];
  load_Label := false;
  metadata := {[ "axes" := VList 0%nat; "colormap" := VList 1%nat ]};
  properties := Some sample_props
|}.

(** ** Notions used by the statements *)

(** An array holds as many entries as its shape says. *)
Definition wf_ndarray (a : ndarray) : Prop :=
  length (flat a) = prod_shape (shape a).

(** A matrix without its row [k] and its column [k]: the rows are
    listed, row [k] is dropped, and entry [k] is dropped from each row
    that is left. *)
Definition delete_row_col (k : nat) (a : ndarray) : ndarray :=
  match shape a with
  | [r; c] =>
      {| shape := [pred r; pred c];
         flat := concat (map (delete_at k) (delete_at k (chunks c r (flat a)))) |}
  | _ => a
  end.

(** Some object of the table has the key. *)
Definition has_key `{External} (key : string) (p : props) : bool :=
  existsb (fun o => bool_decide (key ∈ map fst (snd o))) p.

(** What one object adds to the column of [key]: its id if the column
    is ["index"], then its value or None if [key] is a key of the
    table. *)
Definition contribution `{External} (p : props) (key : string)
    (o : val * list (string * val)) : list val :=
  (if String.eqb key "index" then [fst o] else [])
  ++ (if has_key key p then [default VNone (dict_get key (snd o))] else []).

(** [not (data is None or len(data) < 1)] *)
Definition has_data `{External} (node : Node) : bool :=
  match data node with
  | None | Some [] => false
  | Some (_ :: _) => true
  end.


(** An entry of a colormap list after the pass, against the entry
    before it: the same entry, or a color map object in the place of an
    entry that was not an instance of [Colormap]. *)
Definition kept_or_realized `{External} (before after : val) : Prop :=
  after = before \/ (is_Colormap before = false /\ is_colormap_object after = true).

(** [x in metadata] for the metadata dict of a record, whose entry
    ["properties"] is the field [ld_properties]. *)
Definition record_has_key `{External} (r : LayerData) (x : string) : Prop :=
  is_Some (ld_metadata r !! x) \/ (x = "properties" /\ is_Some (ld_properties r)).

(** The record that the loop appends for a node. *)
Definition record_of `{External} (node : Node) (r : LayerData) : Prop :=
  has_data node = true
  /\ exists st st' : store, transform_node node st = (Ok (Some r), st').

(** * Properties *)

Section Proofs.
Context `{External}.

(** ** Copying the known keys *)

Lemma copy_known_keys (node : Node) (ks : list string) (md : gmap string val) (x : string) :
  foldl (fun md x => match metadata node !! x with
                     | Some v => <[x := v]> md
                     | None => md
                     end) md ks !! x
  = if bool_decide (x ∈ ks)
    then match metadata node !! x with Some v => Some v | None => md !! x end
    else md !! x.
Proof.
  revert md. induction ks as [|k ks IH]; intros md; simpl.
  - reflexivity.
  - rewrite IH. clear IH. destruct (decide (x = k)) as [->|Hne].
    + rewrite (bool_decide_eq_true_2 (k ∈ k :: ks)) by constructor.
      destruct (metadata node !! k) eqn:Hk.
      * destruct (bool_decide (k ∈ ks)); [reflexivity | apply lookup_insert_eq].
      * destruct (bool_decide (k ∈ ks)); reflexivity.
    + assert (Hiff : bool_decide (x ∈ k :: ks) = bool_decide (x ∈ ks)).
      { apply bool_decide_ext. rewrite elem_of_cons. intuition congruence. }
      assert (Hlk : match metadata node !! k with
                    | Some v => <[k := v]> md
                    | None => md
                    end !! x = md !! x).
      { destruct (metadata node !! k); [by rewrite lookup_insert_ne | reflexivity]. }
      rewrite Hiff, Hlk. reflexivity.
Qed.

Lemma copy_known_lookup (node : Node) (md : gmap string val) (x : string) :
  copy_known node md !! x
  = if bool_decide (x ∈ METADATA_KEYS)
    then match metadata node !! x with Some v => Some v | None => md !! x end
    else md !! x.
Proof. apply copy_known_keys. Qed.

(** ** The single-channel loop *)

Lemma copy_first_item_run (node : Node) (x : string) (md : gmap string val) (st : store) :
  copy_first_item node x md st
  = (Ok match metadata node !! x with
        | Some v => match py_getitem0 v st with
                    | Ok v0 => <[x := v0]> md
                    | Raise _ => md
                    end
        | None => md
        end, st).
Proof.
  unfold copy_first_item. destruct (metadata node !! x) as [v|]; [|reflexivity].
  unfold try_except, mbind, M_bind, reading, mret, M_ret.
  destruct (py_getitem0 v st); reflexivity.
Qed.

Lemma single_channel_loop (node : Node) (st : store) (ks : list string) :
  forall md0 : gmap string val,
  exists md : gmap string val,
    for_each ks (copy_first_item node) md0 st = (Ok md, st)
    /\ forall x,
         md !! x = if bool_decide (x ∈ ks)
                   then match metadata node !! x with
                        | Some v => match py_getitem0 v st with
                                    | Ok v0 => Some v0
                                    | Raise _ => md0 !! x
                                    end
                        | None => md0 !! x
                        end
                   else md0 !! x.
Proof.
  induction ks as [|k ks IH]; intros md0.
  - exists md0. split; [reflexivity | intros x; reflexivity].
  - simpl. unfold mbind, M_bind. rewrite copy_first_item_run.
    match goal with |- context [for_each ks _ ?m st] => destruct (IH m) as (md & Hrun & Hmd) end.
    exists md. split; [exact Hrun|].
    intros x. rewrite Hmd. clear Hmd Hrun IH.
    destruct (decide (x = k)) as [->|Hne].
    + rewrite (bool_decide_eq_true_2 (k ∈ k :: ks)) by constructor.
      destruct (metadata node !! k) as [v|] eqn:Hk.
      * destruct (py_getitem0 v st) eqn:Hv.
        -- rewrite lookup_insert_eq. destruct (bool_decide (k ∈ ks)); reflexivity.
        -- destruct (bool_decide (k ∈ ks)); reflexivity.
      * destruct (bool_decide (k ∈ ks)); reflexivity.
    + assert (Hiff : bool_decide (x ∈ k :: ks) = bool_decide (x ∈ ks)).
      { apply bool_decide_ext. rewrite elem_of_cons. intuition congruence. }
      rewrite Hiff.
      assert (Hlk : match metadata node !! k with
                    | Some v => match py_getitem0 v st with
                                | Ok v0 => <[k := v0]> md0
                                | Raise _ => md0
                                end
                    | None => md0
                    end !! x = md0 !! x).
      { destruct (metadata node !! k) as [v|]; [|reflexivity].
        destruct (py_getitem0 v st); [by rewrite lookup_insert_ne | reflexivity]. }
      rewrite Hlk. reflexivity.
Qed.

(** ** Reducing the affine matrix *)

Lemma py_index_lt (len : nat) (i : Z) (k : nat) :
  py_index len i = Some k -> (k < len)%nat.
Proof.
  unfold py_index. intros Hk.
  destruct ((0 <=? i) && (i <? Z.of_nat len)) eqn:Hpos.
  - apply andb_true_iff in Hpos as [H1 H2]. inversion Hk; subst. lia.
  - destruct ((- Z.of_nat len <=? i) && (i <? 0)) eqn:Hneg; [|discriminate].
    apply andb_true_iff in Hneg as [H1 H2]. inversion Hk; subst. lia.
Qed.

Lemma py_index_nonneg (len : nat) (i : Z) :
  0 <= i < Z.of_nat len -> py_index len i = Some (Z.to_nat i).
Proof.
  intros Hi. unfold py_index.
  replace (0 <=? i) with true by (symmetry; apply Z.leb_le; lia).
  replace (i <? Z.of_nat len) with true by (symmetry; apply Z.ltb_lt; lia).
  reflexivity.
Qed.

(** The mask computation on a 6 by 6 matrix is the deletion of one row
    and one column. *)
Lemma reduce_affine_6x6 (channel_axis : Z) (k : nat) (a : ndarray) :
  shape a = [6; 6]%nat -> wf_ndarray a ->
  py_index 6 channel_axis = Some k ->
  reduce_affine channel_axis (Ok (VArray a)) = Ok (VArray (delete_row_col k a)).
Proof.
  destruct a as [sh fl]. unfold wf_ndarray. simpl. intros -> Hwf Hk.
  pose proof (py_index_lt _ _ _ Hk) as Hlt.
  unfold reduce_affine, seq_setitem. rewrite length_replicate, Hk.
  simpl in Hwf.
  do 36 (destruct fl as [|? fl]; [discriminate Hwf|]).
  destruct fl; [|discriminate Hwf]. clear Hwf Hk.
  do 6 (destruct k as [|k]; [reflexivity|]). lia.
Qed.

Lemma delete_row_col_shape (k : nat) (a : ndarray) :
  shape a = [6; 6]%nat -> shape (delete_row_col k a) = [5; 5]%nat.
Proof. intros Hs. unfold delete_row_col. rewrite Hs. reflexivity. Qed.

(** ** Dictionaries *)

Lemma dict_get_keys {V : Type} (k : string) (d : list (string * V)) :
  k ∈ map fst d <-> is_Some (dict_get k d).
Proof.
  induction d as [|[k' v] d IH]; simpl.
  - split; [intros Hin; inversion Hin | intros [? ?]; discriminate].
  - rewrite elem_of_cons. destruct (String.eqb_spec k k') as [->|Hne].
    + split; [eauto | by left].
    + rewrite <- IH. intuition congruence.
Qed.

Lemma dict_get_set {V : Type} (k k' : string) (v : V) (d : list (string * V)) :
  dict_get k' (dict_set k v d) = if String.eqb k' k then Some v else dict_get k' d.
Proof.
  induction d as [|[k0 v0] d IH]; simpl.
  - destruct (String.eqb_spec k' k); reflexivity.
  - destruct (String.eqb_spec k k0) as [->|Hne]; simpl.
    + destruct (String.eqb_spec k' k0); reflexivity.
    + rewrite IH. destruct (String.eqb_spec k' k0) as [->|Hne'].
      * destruct (String.eqb_spec k0 k); [congruence | reflexivity].
      * reflexivity.
Qed.

Lemma dict_set_keys {V : Type} (k k' : string) (v : V) (d : list (string * V)) :
  k' ∈ map fst (dict_set k v d) <-> k' = k \/ k' ∈ map fst d.
Proof.
  rewrite !dict_get_keys, dict_get_set.
  destruct (String.eqb_spec k' k) as [->|Hne].
  - split; [by left | by eauto].
  - intuition congruence.
Qed.

Lemma dict_set_NoDup {V : Type} (k : string) (v : V) (d : list (string * V)) :
  NoDup (map fst d) -> NoDup (map fst (dict_set k v d)).
Proof.
  induction d as [|[k0 v0] d IH]; simpl; intros Hnd.
  - apply NoDup_singleton.
  - apply NoDup_cons in Hnd as [Hnotin Hnd].
    destruct (String.eqb_spec k k0) as [->|Hne]; simpl.
    + apply NoDup_cons. by split.
    + apply NoDup_cons. split; [|by apply IH].
      rewrite dict_set_keys. intuition congruence.
Qed.

Lemma dict_append_spec {V : Type} (k : string) (x : V) (d : list (string * list V)) :
  is_Some (dict_get k d) ->
  exists d', dict_append k x d = Ok d'
             /\ forall k', dict_get k' d'
                           = if String.eqb k' k then (fun l => l ++ [x]) <$> dict_get k' d
                             else dict_get k' d.
Proof.
  induction d as [|[k0 l0] d IH]; simpl; intros Hk.
  - destruct Hk; discriminate.
  - destruct (String.eqb_spec k k0) as [->|Hne].
    + eexists. split; [reflexivity|]. intros k'. simpl.
      destruct (String.eqb_spec k' k0); reflexivity.
    + destruct (IH Hk) as (d' & Happ & Hget). rewrite Happ. simpl.
      eexists. split; [reflexivity|]. intros k'. simpl.
      destruct (String.eqb_spec k' k0) as [->|Hne'].
      * destruct (String.eqb_spec k0 k); [congruence | reflexivity].
      * apply Hget.
Qed.

(** ** The two loops of transform_properties *)

Lemma create_keys_get (k : string) (ks : list string) :
  forall d : columns,
    dict_get k (foldl (fun properties key => dict_set key [] properties) d ks)
    = if bool_decide (k ∈ ks) then Some [] else dict_get k d.
Proof.
  induction ks as [|a ks IH]; intros d; simpl; [reflexivity|].
  rewrite IH, dict_get_set. clear IH.
  destruct (String.eqb_spec k a) as [->|Hne].
  - rewrite (bool_decide_eq_true_2 (a ∈ a :: ks)) by constructor.
    destruct (bool_decide (a ∈ ks)); reflexivity.
  - assert (Hiff : bool_decide (k ∈ a :: ks) = bool_decide (k ∈ ks)).
    { apply bool_decide_ext. rewrite elem_of_cons. intuition congruence. }
    rewrite Hiff. reflexivity.
Qed.

Lemma create_keys_NoDup (ks : list string) :
  forall d : columns,
    NoDup (map fst d) ->
    NoDup (map fst (foldl (fun properties key => dict_set key [] properties) d ks)).
Proof.
  induction ks as [|a ks IH]; intros d Hnd; simpl; [exact Hnd|].
  apply IH. by apply dict_set_NoDup.
Qed.

Lemma create_lists_from_get (k : string) (p : props) :
  forall d : columns,
    dict_get k (foldl (fun properties '(label_id, props_dict) =>
                         foldl (fun properties key => dict_set key [] properties)
                               properties (map fst props_dict)) d p)
    = if has_key k p then Some [] else dict_get k d.
Proof.
  induction p as [|[label_id props_dict] p IH]; intros d; simpl; [reflexivity|].
  rewrite IH, create_keys_get. clear IH.
  destruct (bool_decide (k ∈ map fst props_dict)); simpl;
    destruct (has_key k p); reflexivity.
Qed.

Lemma create_lists_from_NoDup (p : props) :
  forall d : columns,
    NoDup (map fst d) ->
    NoDup (map fst (foldl (fun properties '(label_id, props_dict) =>
                             foldl (fun properties key => dict_set key [] properties)
                                   properties (map fst props_dict)) d p)).
Proof.
  induction p as [|[label_id props_dict] p IH]; intros d Hnd; simpl; [exact Hnd|].
  apply IH. by apply create_keys_NoDup.
Qed.

Lemma create_lists_get (k : string) (p : props) :
  dict_get k (create_lists p) = if has_key k p then Some [] else None.
Proof. apply create_lists_from_get. Qed.

Lemma create_lists_NoDup (p : props) : NoDup (map fst (create_lists p)).
Proof. apply create_lists_from_NoDup. constructor. Qed.

Lemma create_lists_keys (k : string) (p : props) :
  bool_decide (k ∈ map fst (create_lists p)) = has_key k p.
Proof.
  destruct (has_key k p) eqn:Hk.
  - apply bool_decide_eq_true_2. apply dict_get_keys.
    rewrite create_lists_get, Hk. eauto.
  - apply bool_decide_eq_false_2. rewrite dict_get_keys, create_lists_get, Hk.
    intros [? ?]; discriminate.
Qed.

Lemma append_values_spec (props_dict : list (string * val)) (keys : list string) :
  forall cols : columns,
    NoDup keys ->
    (forall k, k ∈ keys -> is_Some (dict_get k cols)) ->
    exists cols' : columns,
      for_each keys
        (fun key properties =>
           dict_append key (default VNone (dict_get key props_dict)) properties)
        cols = Ok cols'
      /\ forall k, dict_get k cols'
                   = if bool_decide (k ∈ keys)
                     then (fun l => l ++ [default VNone (dict_get k props_dict)])
                            <$> dict_get k cols
                     else dict_get k cols.
Proof.
  induction keys as [|a keys IH]; intros cols Hnd Hpres.
  - exists cols. split; [reflexivity | intros k; reflexivity].
  - apply NoDup_cons in Hnd as [Hnotin Hnd].
    destruct (dict_append_spec a (default VNone (dict_get a props_dict)) cols)
      as (c1 & Happ & Hget1); [apply Hpres; constructor|].
    destruct (IH c1 Hnd) as (cols' & Hrun & Hget).
    { intros k Hk. rewrite Hget1.
      destruct (String.eqb k a).
      - apply fmap_is_Some. apply Hpres. by constructor.
      - apply Hpres. by constructor. }
    exists cols'. split.
    + simpl. unfold mbind, result_bind at 1. rewrite Happ. exact Hrun.
    + intros k. rewrite Hget, Hget1. clear Hget Hget1 Hrun IH.
      destruct (String.eqb_spec k a) as [->|Hne].
      * rewrite (bool_decide_eq_true_2 (a ∈ a :: keys)) by constructor.
        rewrite (bool_decide_eq_false_2 (a ∈ keys)) by assumption. reflexivity.
      * assert (Hiff : bool_decide (k ∈ a :: keys) = bool_decide (k ∈ keys)).
        { apply bool_decide_ext. rewrite elem_of_cons. intuition congruence. }
        rewrite Hiff. reflexivity.
Qed.

Lemma append_object_spec (keys : list string) (o : val * list (string * val))
    (cols : columns) :
  NoDup keys ->
  is_Some (dict_get "index" cols) ->
  (forall k, k ∈ keys -> is_Some (dict_get k cols)) ->
  exists cols' : columns,
    append_object keys o cols = Ok cols'
    /\ forall k, dict_get k cols'
                 = (fun l => l ++ ((if String.eqb k "index" then [fst o] else [])
                                   ++ (if bool_decide (k ∈ keys)
                                       then [default VNone (dict_get k (snd o))]
                                       else [])))
                     <$> dict_get k cols.
Proof.
  intros Hnd Hindex Hpres. destruct o as [label_id props_dict]. simpl.
  destruct (dict_append_spec "index" label_id cols Hindex) as (c1 & Happ & Hget1).
  destruct (append_values_spec props_dict keys c1 Hnd) as (cols' & Hrun & Hget).
  { intros k Hk. rewrite Hget1. destruct (String.eqb k "index").
    - apply fmap_is_Some. by apply Hpres.
    - by apply Hpres. }
  exists cols'. split.
  - unfold mbind, result_bind at 1. rewrite Happ. exact Hrun.
  - intros k. rewrite Hget, Hget1.
    destruct (String.eqb k "index"), (bool_decide (k ∈ keys)),
      (dict_get k cols) as [l|]; simpl;
      rewrite ?app_nil_r, <- ?app_assoc; reflexivity.
Qed.

Lemma append_objects_spec (keys : list string) (p : props) :
  forall cols : columns,
    NoDup keys ->
    is_Some (dict_get "index" cols) ->
    (forall k, k ∈ keys -> is_Some (dict_get k cols)) ->
    exists cols' : columns,
      for_each p (append_object keys) cols = Ok cols'
      /\ forall k, dict_get k cols'
                   = (fun l => l ++ concat (map (fun o =>
                                 (if String.eqb k "index" then [fst o] else [])
                                 ++ (if bool_decide (k ∈ keys)
                                     then [default VNone (dict_get k (snd o))]
                                     else [])) p))
                       <$> dict_get k cols.
Proof.
  induction p as [|o p IH]; intros cols Hnd Hindex Hpres.
  - exists cols. split; [reflexivity|]. intros k. simpl.
    destruct (dict_get k cols); simpl; [by rewrite app_nil_r | reflexivity].
  - destruct (append_object_spec keys o cols Hnd Hindex Hpres) as (c1 & Happ & Hget1).
    destruct (IH c1 Hnd) as (cols' & Hrun & Hget).
    { rewrite Hget1. by apply fmap_is_Some. }
    { intros k Hk. rewrite Hget1. apply fmap_is_Some. by apply Hpres. }
    exists cols'. split.
    + simpl. unfold mbind, result_bind at 1. rewrite Happ. exact Hrun.
    + intros k. rewrite Hget, Hget1. simpl.
      destruct (dict_get k cols); simpl; [|reflexivity].
      by rewrite <- app_assoc.
Qed.

(** The table that transform_properties builds, column by column. *)
Lemma transform_properties_columns (p : props) :
  exists cols : columns,
    transform_properties (Some p) = Ok (Some cols)
    /\ forall k, dict_get k cols
                 = if String.eqb k "index" || has_key k p
                   then Some (concat (map (contribution p k) p))
                   else None.
Proof.
  unfold transform_properties.
  destruct (append_objects_spec (map fst (create_lists p)) p
              (dict_set "index" [] (create_lists p)))
    as (cols & Hrun & Hget).
  - apply create_lists_NoDup.
  - rewrite dict_get_set. simpl. eauto.
  - intros k Hk. rewrite dict_get_set. destruct (String.eqb k "index"); [eauto|].
    by apply dict_get_keys.
  - exists cols. split.
    + cbv zeta. rewrite Hrun. reflexivity.
    + intros k. rewrite Hget, dict_get_set, create_lists_get, create_lists_keys.
      unfold contribution.
      destruct (String.eqb k "index"), (has_key k p); reflexivity.
Qed.

Lemma transform_properties_total (p : option props) :
  exists cols, transform_properties p = Ok cols.
Proof.
  destruct p as [p|]; [|by eexists].
  destruct (transform_properties_columns p) as (cols & Hrun & _). eauto.
Qed.

(** ** The colormap pass and the store *)

Lemma realize_run (cm : val) (st : store) :
  exists r : result BaseColormap, realize cm st = (r, st).
Proof. destruct cm; simpl; unfold lift, reading; eauto. Qed.

Lemma colormap_pass_realized (l : loc) (items : list val) :
  forall (idx : nat) (st : store),
    Forall (fun v => is_Colormap v = true) items ->
    colormap_pass l idx items st = (Ok (), st).
Proof.
  induction items as [|cm rest IH]; intros idx st Hall; simpl; [reflexivity|].
  apply Forall_cons in Hall as [Hcm Hrest]. rewrite Hcm.
  unfold mbind, M_bind, mret, M_ret. by apply IH.
Qed.

Lemma is_Colormap_object (v : val) :
  is_Colormap v = true -> is_colormap_object v = true.
Proof. destruct v; simpl; try discriminate. reflexivity. Qed.

Lemma colormap_pass_spec (l : loc) (items : list val) :
  forall (idx : nat) (st : store) (pre : list val) (res : result ()) (st' : store),
    deref st l = pre ++ items -> length pre = idx ->
    colormap_pass l idx items st = (res, st') ->
    (forall l', l' <> l -> st' !! l' = st !! l')
    /\ exists items' : list val,
         deref st' l = pre ++ items'
         /\ Forall2 kept_or_realized items items'
         /\ (res = Ok () -> Forall (fun v => is_colormap_object v = true) items').
Proof.
  induction items as [|cm rest IH]; intros idx st pre res st' Hl Hlen Hrun.
  - simpl in Hrun. inversion Hrun; subst. split; [done|].
    exists []. split; [done|]. split; [constructor | by constructor].
  - simpl in Hrun. unfold mbind at 1, M_bind at 1 in Hrun.
    destruct (is_Colormap cm) eqn:Hcm.
    + unfold mret, M_ret in Hrun.
      destruct (IH (S idx) st (pre ++ [cm]) res st') as (Hframe & items' & Hl' & Hrel & Hok).
      { by rewrite <- app_assoc. }
      { rewrite length_app. simpl. lia. }
      { exact Hrun. }
      split; [exact Hframe|]. exists (cm :: items').
      split; [by rewrite <- app_assoc in Hl'|].
      split; [constructor; [by left | exact Hrel]|].
      intros Hres. constructor; [by apply is_Colormap_object | by apply Hok].
    + unfold mbind at 1, M_bind at 1 in Hrun.
      destruct (realize_run cm st) as (r & Hr). rewrite Hr in Hrun.
      destruct r as [c|e].
      * unfold list_setitem in Hrun.
        set (st1 := <[l := <[idx := VColormap c]> (deref st l)]> st) in Hrun.
        assert (Hl1 : deref st1 l = (pre ++ [VColormap c]) ++ rest).
        { unfold deref, st1. rewrite lookup_insert_eq. simpl.
          fold (deref st l). rewrite Hl, <- Hlen.
          rewrite insert_app_r_alt by lia. rewrite Nat.sub_diag. simpl.
          by rewrite <- app_assoc. }
        destruct (IH (S idx) st1 (pre ++ [VColormap c]) res st')
          as (Hframe & items' & Hl' & Hrel & Hok).
        { exact Hl1. }
        { rewrite length_app. simpl. lia. }
        { exact Hrun. }
        split.
        { intros l' Hne. rewrite Hframe by exact Hne.
          unfold st1. by rewrite lookup_insert_ne. }
        exists (VColormap c :: items').
        split; [by rewrite <- app_assoc in Hl'|].
        split; [constructor; [by right | exact Hrel]|].
        intros Hres. constructor; [reflexivity | by apply Hok].
      * inversion Hrun; subst. split; [done|].
        exists (cm :: rest). split; [exact Hl|].
        split; [|intros Hres; discriminate].
        apply Forall2_same_length_lookup_2; [done|].
        intros i x y Hx Hy. left. congruence.
Qed.

Lemma normalize_colormaps_realized (md : gmap string val) (l : loc) (st : store) :
  md !! "colormap" = Some (VList l) ->
  Forall (fun v => is_Colormap v = true) (deref st l) ->
  normalize_colormaps md st = (Ok (), st).
Proof.
  intros Hmd Hall. unfold normalize_colormaps. rewrite Hmd.
  unfold mbind, M_bind, reading. by apply colormap_pass_realized.
Qed.

Lemma normalize_colormaps_spec (md : gmap string val) (st : store)
    (res : result ()) (st' : store) :
  normalize_colormaps md st = (res, st') ->
  (forall l', md !! "colormap" <> Some (VList l') -> st' !! l' = st !! l')
  /\ (forall l, md !! "colormap" = Some (VList l) ->
        Forall2 kept_or_realized (deref st l) (deref st' l)
        /\ (res = Ok () -> Forall (fun v => is_colormap_object v = true) (deref st' l))).
Proof.
  intros Hrun. unfold normalize_colormaps in Hrun.
  assert (Hsame : st' = st ->
            (forall l', md !! "colormap" <> Some (VList l') -> st' !! l' = st !! l')
            /\ (forall l, md !! "colormap" = Some (VList l) ->
                  Forall2 kept_or_realized (deref st l) (deref st' l)
                  /\ (res = Ok () -> Forall (fun v => is_colormap_object v = true) (deref st' l)))
            \/ exists l, md !! "colormap" = Some (VList l)).
  { intros ->. destruct (md !! "colormap") as [[| | | | | | |l]|]; try (left; split; [done | intros ? ?; discriminate]).
    right. eauto. }
  destruct (md !! "colormap") as [cms|] eqn:Hcms.
  2:{ inversion Hrun; subst. destruct Hsame as [?|[? ?]]; [done..|discriminate]. }
  destruct cms as [| | | |s|a| |l];
    try (inversion Hrun; subst; destruct Hsame as [?|[? ?]]; [done..|discriminate]).
  - destruct s as [|c s].
    + inversion Hrun; subst. destruct Hsame as [?|[? ?]]; [done..|discriminate].
    + unfold mbind, M_bind, raise in Hrun.
      destruct (realize_run (VStr (String c EmptyString)) st) as (r & Hr).
      rewrite Hr in Hrun.
      destruct r; inversion Hrun; subst; destruct Hsame as [?|[? ?]]; done || discriminate.
  - destruct (shape a) as [|[|n] rest].
    + inversion Hrun; subst. destruct Hsame as [?|[? ?]]; [done..|discriminate].
    + inversion Hrun; subst. destruct Hsame as [?|[? ?]]; [done..|discriminate].
    + unfold mbind, M_bind, raise, lift in Hrun.
      destruct (ndarray_getitem0 a) as [row|e].
      * destruct (realize_run (VArray row) st) as (r & Hr). rewrite Hr in Hrun.
        destruct r; inversion Hrun; subst; destruct Hsame as [?|[? ?]]; done || discriminate.
      * inversion Hrun; subst. destruct Hsame as [?|[? ?]]; [done..|discriminate].
  - clear Hsame. unfold mbind, M_bind, reading in Hrun.
    destruct (colormap_pass_spec l (deref st l) 0 st [] res st' eq_refl eq_refl Hrun)
      as (Hframe & items' & Hl' & Hrel & Hok).
    simpl in Hl'. split.
    + intros l' Hne. apply Hframe. congruence.
    + intros l0 Hl0. inversion Hl0; subst l0. rewrite Hl'. by split.
Qed.

(** ** The paths before the colormap pass leave the store alone *)

Lemma channel_axis_of_run (node : Node) (shape : list nat) (st : store) :
  exists r, channel_axis_of node shape st = (r, st).
Proof.
  unfold channel_axis_of. destruct (metadata node !! "axes") as [axes|].
  - unfold mbind, M_bind, reading.
    destruct (py_contains "c" axes st) as [[|]|e]; [|by eexists..].
    destruct (py_index_of "c" axes st); by eexists.
  - unfold mbind, M_bind, lift.
    destruct (seq_getitem shape CHANNEL_DIMENSION) as [size|e]; [|by eexists].
    destruct (1 <? size)%nat; by eexists.
Qed.

Lemma single_channel_run (node : Node) (st : store) :
  exists md, single_channel node st = (Ok md, st).
Proof.
  destruct (single_channel_loop node st METADATA_KEYS ∅) as (md & Hrun & _).
  by exists md.
Qed.

Lemma image_layer_run (node : Node) (shape : list nat) (st : store) :
  exists r, image_layer node shape st = (r, st).
Proof.
  unfold image_layer, mbind, M_bind.
  destruct (channel_axis_of_run node shape st) as (r & Hr). rewrite Hr.
  destruct r as [[channel_axis|]|e]; [by eexists| |by eexists].
  destruct (single_channel_run node st) as (md & Hmd). by eexists.
Qed.

(** ** One node *)

Lemma transform_node_skip (node : Node) (st : store) :
  has_data node = false -> transform_node node st = (Ok None, st).
Proof.
  unfold has_data, transform_node. destruct (data node) as [[|d0 ds]|]; done.
Qed.

Lemma transform_node_inv (node : Node) (st : store) (res : option LayerData) (st' : store) :
  has_data node = true ->
  transform_node node st = (Ok res, st') ->
  exists (d0 : pixels) (ds : list pixels) (r : LayerData),
    res = Some r
    /\ data node = Some (d0 :: ds)
    /\ normalize_colormaps (ld_metadata r) st = (Ok (), st')
    /\ transform_properties (properties node) = Ok (ld_properties r)
    /\ (if load_Label node
        then label_layer node (d0 :: ds) (px_shape d0) = Ok (ld_data r, ld_metadata r)
             /\ ld_layer_type r = "labels"
        else image_layer node (px_shape d0) st = (Ok (ld_metadata r), st)
             /\ ld_data r = d0 :: ds /\ ld_layer_type r = "image").
Proof.
  unfold has_data, transform_node.
  destruct (data node) as [[|d0 ds]|]; [done| |done]. intros _ Hrun.
  exists d0, ds. unfold mbind at 1, M_bind at 1 in Hrun.
  destruct (load_Label node).
  - unfold mbind at 1, M_bind at 1, lift at 1 in Hrun.
    destruct (label_layer node (d0 :: ds) (px_shape d0)) as [[data' md]|e]; [|done].
    unfold mret at 1, M_ret at 1 in Hrun.
    unfold mbind at 1, M_bind at 1 in Hrun.
    destruct (normalize_colormaps md st) as [[[]|e] st1] eqn:Hnorm; [|done].
    unfold mbind, M_bind, lift in Hrun.
    destruct (transform_properties (properties node)) as [cols|e]; [|done].
    inversion Hrun; subst. eexists. simpl. done.
  - unfold mbind at 1, M_bind at 1 in Hrun.
    destruct (image_layer_run node (px_shape d0) st) as (r & Hr). rewrite Hr in Hrun.
    destruct r as [md|e]; [|done].
    unfold mret at 1, M_ret at 1 in Hrun.
    unfold mbind at 1, M_bind at 1 in Hrun.
    destruct (normalize_colormaps md st) as [[[]|e] st1] eqn:Hnorm; [|done].
    unfold mbind, M_bind, lift in Hrun.
    destruct (transform_properties (properties node)) as [cols|e]; [|done].
    inversion Hrun; subst. eexists. simpl. done.
Qed.

(** ** Channel detection *)

Lemma eq_str_true (s : string) (v : val) : eq_str s v = true <-> v = VStr s.
Proof.
  destruct v; simpl; try (split; [discriminate | intros Heq; discriminate]).
  destruct (String.eqb_spec s s0) as [->|Hne]; split; congruence.
Qed.

Lemma find_str_first (s : string) (items : list val) (k : nat) :
  find_str s items = Some k <->
  items !! k = Some (VStr s) /\ forall j, (j < k)%nat -> items !! j <> Some (VStr s).
Proof.
  revert k. induction items as [|v rest IH]; intros k; simpl.
  - split; [discriminate | intros [Hk _]; discriminate].
  - destruct (eq_str s v) eqn:Hv.
    + apply eq_str_true in Hv. subst v. split.
      * intros Hk. inversion Hk; subst. split; [reflexivity | intros j Hj; lia].
      * intros [Hk Hfirst]. destruct k as [|k]; [reflexivity|].
        exfalso. apply (Hfirst O); [lia | reflexivity].
    + assert (Hne : v <> VStr s).
      { intros Heq. apply eq_str_true in Heq. congruence. }
      destruct k as [|k].
      * split.
        -- destruct (find_str s rest); discriminate.
        -- intros [Hk _]. simpl in Hk. congruence.
      * split.
        -- intros Hk. destruct (find_str s rest) as [k'|]; [|discriminate].
           inversion Hk; subst k'. destruct (proj1 (IH k) eq_refl) as [Hk' Hfirst].
           split; [exact Hk'|]. intros [|j] Hj; simpl; [congruence|].
           apply Hfirst. lia.
        -- intros [Hk Hfirst]. simpl in Hk.
           assert (Hfind : find_str s rest = Some k).
           { apply IH. split; [exact Hk|]. intros j Hj. apply (Hfirst (S j)). lia. }
           by rewrite Hfind.
Qed.

Lemma find_str_elem (s : string) (items : list val) :
  VStr s ∈ items -> is_Some (find_str s items).
Proof.
  induction items as [|v rest IH]; intros Hin; simpl.
  - inversion Hin.
  - destruct (eq_str s v) eqn:Hv; [eauto|].
    apply elem_of_cons in Hin as [Heq|Hin].
    + symmetry in Heq. apply eq_str_true in Heq. congruence.
    + destruct (IH Hin) as [k Hk]. rewrite Hk. simpl. eauto.
Qed.

(** C1: for an image node the channel axis is the position of "c" in
    [axes] when [axes] is present and contains "c"; without an [axes]
    key it is absent when the shape has size 1 at CHANNEL_DIMENSION,
    and then the output metadata has no [channel_axis] key; without an
    [axes] key and with a size above 1 there, it is
    CHANNEL_DIMENSION. *)
Theorem channel_axis_determined (node : Node) (shape : list nat) (st : store) :
  (forall l, metadata node !! "axes" = Some (VList l) ->
     VStr "c" ∈ deref st l ->
     exists k : nat,
       channel_axis_of node shape st = (Ok (Some (Z.of_nat k)), st)
       /\ deref st l !! k = Some (VStr "c")
       /\ forall j, (j < k)%nat -> deref st l !! j <> Some (VStr "c"))
  /\ (forall t k, metadata node !! "axes" = Some (VStr t) ->
        String.index 0 "c" t = Some k ->
        channel_axis_of node shape st = (Ok (Some (Z.of_nat k)), st))
  /\ (metadata node !! "axes" = None ->
      seq_getitem shape CHANNEL_DIMENSION = Ok 1%nat ->
      channel_axis_of node shape st = (Ok None, st)
      /\ forall d0 ds r st',
           data node = Some (d0 :: ds) -> px_shape d0 = shape ->
           load_Label node = false ->
           transform_node node st = (Ok (Some r), st') ->
           ld_metadata r !! "channel_axis" = None)
  /\ (forall size, metadata node !! "axes" = None ->
        seq_getitem shape CHANNEL_DIMENSION = Ok size -> (1 < size)%nat ->
        channel_axis_of node shape st = (Ok (Some CHANNEL_DIMENSION), st)).
Proof.
  split; [|split; [|split]].
  - intros l Haxes Hin. destruct (find_str_elem "c" _ Hin) as [k Hk].
    exists k. pose proof Hk as Hfirst. apply find_str_first in Hfirst as [Hat Hfirst].
    split; [|by split].
    unfold channel_axis_of. rewrite Haxes.
    unfold mbind, M_bind, reading, py_contains, py_index_of. rewrite Hk.
    rewrite bool_decide_eq_true_2 by eauto. cbv beta iota. rewrite ?Hk. reflexivity.
  - intros t k Haxes Hk. unfold channel_axis_of. rewrite Haxes.
    unfold mbind, M_bind, reading, py_contains, py_index_of. rewrite Hk.
    rewrite bool_decide_eq_true_2 by eauto. cbv beta iota. rewrite ?Hk. reflexivity.
  - intros Haxes Hsize.
    assert (Hca : channel_axis_of node shape st = (Ok None, st)).
    { unfold channel_axis_of. rewrite Haxes.
      unfold mbind, M_bind, lift. rewrite Hsize. reflexivity. }
    split; [exact Hca|].
    intros d0 ds r st' Hdata Hshape Hlabel Hrun.
    apply transform_node_inv in Hrun
      as (d0' & ds' & r' & Hr & Hdata' & _ & _ & Hpath);
      [|unfold has_data; by rewrite Hdata].
    inversion Hr; subst r'. rewrite Hdata in Hdata'. inversion Hdata'; subst d0' ds'.
    rewrite Hlabel in Hpath. destruct Hpath as (Himage & _ & _).
    unfold image_layer, mbind, M_bind in Himage. rewrite Hshape, Hca in Himage.
    destruct (single_channel_loop node st METADATA_KEYS ∅) as (md & Hrun & Hmd).
    unfold single_channel in Himage. rewrite Hrun in Himage.
    inversion Himage; subst md. rewrite Hmd. reflexivity.
  - intros size Haxes Hsize Hgt. unfold channel_axis_of. rewrite Haxes.
    unfold mbind, M_bind, lift. rewrite Hsize.
    replace (1 <? size)%nat with true by (symmetry; apply Nat.ltb_lt; lia).
    reflexivity.
Qed.

(** ** The multi-channel path *)

Lemma metadata_keys_affine : bool_decide ("affine" ∈ METADATA_KEYS) = true.
Proof. reflexivity. Qed.

Lemma metadata_keys_colormap : bool_decide ("colormap" ∈ METADATA_KEYS) = true.
Proof. reflexivity. Qed.

Lemma metadata_keys_channel_axis : bool_decide ("channel_axis" ∈ METADATA_KEYS) = false.
Proof. reflexivity. Qed.

Lemma image_layer_multi (node : Node) (shape : list nat) (st : store) (channel_axis : Z) :
  channel_axis_of node shape st = (Ok (Some channel_axis), st) ->
  image_layer node shape st = (multi_channel node channel_axis, st).
Proof. intros Hca. unfold image_layer, mbind, M_bind. rewrite Hca. reflexivity. Qed.

Lemma image_layer_single (node : Node) (shape : list nat) (st : store) :
  channel_axis_of node shape st = (Ok None, st) ->
  image_layer node shape st = single_channel node st.
Proof. intros Hca. unfold image_layer, mbind, M_bind. rewrite Hca. reflexivity. Qed.

(** The metadata of the record of an image node is what the image path built. *)
Lemma image_record_metadata (node : Node) (d0 : pixels) (ds : list pixels)
    (st st' : store) (r : LayerData) (md : gmap string val) :
  data node = Some (d0 :: ds) -> load_Label node = false ->
  image_layer node (px_shape d0) st = (Ok md, st) ->
  transform_node node st = (Ok (Some r), st') ->
  ld_metadata r = md.
Proof.
  intros Hdata Hlabel Himage Hrun.
  apply transform_node_inv in Hrun
    as (d0' & ds' & r' & Hr & Hdata' & _ & _ & Hpath);
    [|unfold has_data; by rewrite Hdata].
  inversion Hr; subst r'. rewrite Hdata in Hdata'. inversion Hdata'; subst d0' ds'.
  rewrite Hlabel in Hpath. destruct Hpath as (Himage' & _ & _).
  rewrite Himage in Himage'. by inversion Himage'.
Qed.

(** C2: for an image node with a channel axis, the output metadata has
    [channel_axis] equal to that axis; a 6 by 6 [affine] comes out
    without the row and the column at that index, as a 5 by 5 matrix;
    without an [affine] value no reduction is attempted and the image
    path succeeds. *)
Theorem multi_channel_affine (node : Node) (d0 : pixels) (ds : list pixels)
    (st : store) (channel_axis : Z) :
  data node = Some (d0 :: ds) -> load_Label node = false ->
  channel_axis_of node (px_shape d0) st = (Ok (Some channel_axis), st) ->
  (forall r st', transform_node node st = (Ok (Some r), st') ->
     ld_metadata r !! "channel_axis" = Some (VInt channel_axis))
  /\ (forall a, metadata node !! "affine" = Some (VArray a) ->
        shape a = [6; 6]%nat -> wf_ndarray a -> 0 <= channel_axis < 6 ->
        exists md : gmap string val,
          image_layer node (px_shape d0) st = (Ok md, st)
          /\ md !! "channel_axis" = Some (VInt channel_axis)
          /\ md !! "affine" = Some (VArray (delete_row_col (Z.to_nat channel_axis) a))
          /\ shape (delete_row_col (Z.to_nat channel_axis) a) = [5; 5]%nat
          /\ forall r st', transform_node node st = (Ok (Some r), st') ->
               ld_metadata r = md)
  /\ (metadata node !! "affine" = None \/ metadata node !! "affine" = Some VNone ->
      exists md : gmap string val,
        image_layer node (px_shape d0) st = (Ok md, st)
        /\ md !! "channel_axis" = Some (VInt channel_axis)
        /\ md !! "affine" = metadata node !! "affine"
        /\ forall r st', transform_node node st = (Ok (Some r), st') ->
             ld_metadata r = md).
Proof.
  intros Hdata Hlabel Hca.
  pose proof (image_layer_multi _ _ _ _ Hca) as Himage.
  set (md0 := copy_known node (<["channel_axis" := VInt channel_axis]> ∅)).
  assert (Haffine0 : md0 !! "affine" = metadata node !! "affine").
  { unfold md0. rewrite copy_known_lookup, metadata_keys_affine.
    destruct (metadata node !! "affine"); [reflexivity|].
    by rewrite lookup_insert_ne. }
  assert (Hca0 : md0 !! "channel_axis" = Some (VInt channel_axis)).
  { unfold md0. rewrite copy_known_lookup, metadata_keys_channel_axis.
    apply lookup_insert_eq. }
  split; [|split].
  - intros r st' Hrun.
    apply transform_node_inv in Hrun
      as (d0' & ds' & r' & Hr & Hdata' & _ & _ & Hpath);
      [|unfold has_data; by rewrite Hdata].
    inversion Hr; subst r'. rewrite Hdata in Hdata'. inversion Hdata'; subst d0' ds'.
    rewrite Hlabel in Hpath. destruct Hpath as (Himage' & _ & _).
    rewrite Himage in Himage'. inversion Himage' as [Hmulti].
    unfold multi_channel in Hmulti. fold md0 in Hmulti.
    destruct (md0 !! "affine") as [[]|];
      try (inversion Hmulti; subst; exact Hca0);
      unfold mbind, result_bind in Hmulti;
      match type of Hmulti with
      | context [reduce_affine ?c ?v] => destruct (reduce_affine c v)
      end; inversion Hmulti; subst;
      by rewrite lookup_insert_ne.
  - intros a Haffine Hshape Hwf Hrange.
    assert (Hmulti : multi_channel node channel_axis
                     = Ok (<["affine" := VArray (delete_row_col (Z.to_nat channel_axis) a)]> md0)).
    { unfold multi_channel. fold md0. rewrite Haffine0, Haffine.
      rewrite (reduce_affine_6x6 channel_axis (Z.to_nat channel_axis) a Hshape Hwf)
        by (apply py_index_nonneg; simpl; lia).
      reflexivity. }
    eexists. split; [by rewrite Himage, Hmulti|].
    split; [by rewrite lookup_insert_ne|].
    split; [apply lookup_insert_eq|].
    split; [by apply delete_row_col_shape|].
    intros r st' Hrun.
    eapply image_record_metadata; [exact Hdata | exact Hlabel | | exact Hrun].
    by rewrite Himage, Hmulti.
  - intros Hnone.
    assert (Hmulti : multi_channel node channel_axis = Ok md0).
    { unfold multi_channel. fold md0. rewrite Haffine0.
      destruct Hnone as [-> | ->]; reflexivity. }
    exists md0. split; [by rewrite Himage, Hmulti|].
    split; [exact Hca0|]. split; [exact Haffine0|].
    intros r st' Hrun.
    eapply image_record_metadata; [exact Hdata | exact Hlabel | | exact Hrun].
    by rewrite Himage, Hmulti.
Qed.

(** ** The single-channel path *)

(** C6: for a single-channel image node the loop over the recognized
    keys never raises; the output value of a key present in the node's
    metadata is element [0] of the node's value, and a key whose value
    cannot be indexed is left out. *)
Theorem single_channel_first_items (node : Node) (st : store) :
  exists md : gmap string val,
    single_channel node st = (Ok md, st)
    /\ (forall x,
          md !! x = if bool_decide (x ∈ METADATA_KEYS)
                    then match metadata node !! x with
                         | Some v => match py_getitem0 v st with
                                     | Ok v0 => Some v0
                                     | Raise _ => None
                                     end
                         | None => None
                         end
                    else None)
    /\ (forall d0 ds r st',
          data node = Some (d0 :: ds) -> load_Label node = false ->
          channel_axis_of node (px_shape d0) st = (Ok None, st) ->
          transform_node node st = (Ok (Some r), st') ->
          ld_metadata r = md).
Proof.
  destruct (single_channel_loop node st METADATA_KEYS ∅) as (md & Hrun & Hmd).
  exists md. split; [exact Hrun|]. split.
  - intros x. rewrite Hmd. reflexivity.
  - intros d0 ds r st' Hdata Hlabel Hca Hnode.
    eapply image_record_metadata; [exact Hdata | exact Hlabel | | exact Hnode].
    rewrite (image_layer_single _ _ _ Hca). exact Hrun.
Qed.

(** ** The loop over the nodes *)

Lemma f_loop_records (ns : list Node) :
  forall (results : list LayerData) (st : store)
         (rs : list LayerData) (self' : ReaderFunction) (st' : store),
    f_loop ns results st = (Ok rs, self', st') ->
    self' = transform []
    /\ exists rs', rs = results ++ rs'
                   /\ Forall2 record_of (List.filter has_data ns) rs'.
Proof.
  induction ns as [|node rest IH]; intros results st rs self' st' Hrun; simpl in Hrun.
  - inversion Hrun; subst. split; [reflexivity|].
    exists []. split; [by rewrite app_nil_r | constructor].
  - destruct (transform_node node st) as [[res|e] st1] eqn:Hnode; [|discriminate].
    simpl. destruct (has_data node) eqn:Hdata.
    + destruct (transform_node_inv node st res st1 Hdata Hnode)
        as (d0 & ds & r & -> & _).
      destruct (IH _ _ _ _ _ Hrun) as (Hself & rs' & -> & Hrel).
      split; [exact Hself|]. exists (r :: rs').
      split; [by rewrite <- app_assoc|].
      constructor; [|exact Hrel]. split; [exact Hdata | eauto].
    + rewrite (transform_node_skip node st Hdata) in Hnode.
      inversion Hnode; subst res st1. by apply (IH _ _ _ _ _ Hrun).
Qed.

(** C5: the list that the reader function returns holds one record for
    each node with data, in the order of the nodes, and none for a
    node whose data is absent or empty. *)
Theorem one_record_per_data_node (ns : list Node) (st : store) :
  (forall rs self' st',
     f (transform ns) st = (Ok rs, self', st') ->
     Forall2 record_of (List.filter has_data ns) rs
     /\ length rs = length (List.filter has_data ns))
  /\ (forall node s, has_data node = false -> transform_node node s = (Ok None, s)).
Proof.
  split.
  - intros rs self' st' Hrun. unfold f in Hrun. simpl in Hrun.
    destruct (f_loop_records ns [] st rs self' st' Hrun) as (_ & rs' & -> & Hrel).
    simpl. split; [exact Hrel|]. symmetry. by eapply Forall2_length.
  - intros node s Hdata. by apply transform_node_skip.
Qed.

(** C10: transform only captures the iterator; the first call of the
    function it returns yields the records of all the nodes and leaves
    the iterator exhausted, so a second call returns the empty
    list. *)
Theorem reader_function_single_shot (ns : list Node) (st : store)
    (rs : list LayerData) (self' : ReaderFunction) (st' : store) :
  f (transform ns) st = (Ok rs, self', st') ->
  nodes (transform ns) = ns
  /\ Forall2 record_of (List.filter has_data ns) rs
  /\ nodes self' = []
  /\ f self' st' = (Ok [], self', st').
Proof.
  intros Hrun. unfold f in Hrun. simpl in Hrun.
  destruct (f_loop_records ns [] st rs self' st' Hrun) as (-> & rs' & -> & Hrel).
  split; [reflexivity|]. split; [exact Hrel|]. split; reflexivity.
Qed.

(** ** The reader entry *)

(** C9: given a list of more than one path, napari_get_reader warns
    and resolves the first path, and only that one. *)
Theorem napari_get_reader_first_path {Zarr : Type}
    (parse_url : string -> option Zarr) (Reader : Zarr -> list Node)
    (p1 p2 : string) (rest : list string) :
  napari_get_reader parse_url Reader (Paths (p1 :: p2 :: rest))
  = ([Warn "more than one path is not currently supported"; ParseUrl p1],
     Ok (match parse_url p1 with
         | Some zarr => Some (transform (Reader zarr))
         | None => None
         end)).
Proof.
  unfold napari_get_reader. simpl. destruct (parse_url p1); reflexivity.
Qed.

(** ** Colormap normalization *)

(** C8: the colormap pass changes nothing in a list whose entries are
    all instances of Colormap already, so that running the pass twice
    on such a list gives what running it once gives. *)
Theorem normalize_colormaps_idempotent (md : gmap string val) (st : store) (l : loc) :
  md !! "colormap" = Some (VList l) ->
  Forall (fun v => is_Colormap v = true) (deref st l) ->
  normalize_colormaps md st = (Ok (), st)
  /\ (normalize_colormaps md;; normalize_colormaps md) st = normalize_colormaps md st.
Proof.
  intros Hmd Hall.
  pose proof (normalize_colormaps_realized md l st Hmd Hall) as Hrun.
  split; [exact Hrun|].
  unfold mbind, M_bind. rewrite Hrun. exact Hrun.
Qed.

(** ** What the transform does to the store *)


(** ** The label path on five dimensions *)

Lemma slice_axis1_spec (d d' : pixels) :
  slice_axis1 d = Ok d' ->
  px_shape d' = delete_at 1 (px_shape d)
  /\ S (length (px_shape d')) = length (px_shape d)
  /\ forall i js, px_at d' (i :: js) = px_at d (i :: O :: js).
Proof.
  unfold slice_axis1. destruct (px_shape d) as [|n0 [|n1 rest]] eqn:Hshape; try discriminate.
  destruct (n1 =? 0)%nat; [discriminate|]. intros Hd. inversion Hd; subst d'. simpl.
  split; [reflexivity|]. split; [reflexivity|]. intros i js. reflexivity.
Qed.

Lemma map_result_Forall2 {A B : Type} (g : A -> result B) (l : list A) (l' : list B) :
  map_result g l = Ok l' -> Forall2 (fun x y => g x = Ok y) l l'.
Proof.
  revert l'. induction l as [|x t IH]; intros l' Hl; simpl in Hl.
  - inversion Hl. constructor.
  - destruct (g x) as [y|e] eqn:Hx; [|discriminate].
    destruct (map_result g t) as [ys|e]; [|discriminate].
    inversion Hl; subst. constructor; [exact Hx | by apply IH].
Qed.

(** With a 6 by 6 [affine], a 5-dimensional label node gets its arrays
    sliced at index 0 of axis 1 and its matrix without row and column
    1. *)
Lemma label_layer_5d (node : Node) (d0 : pixels) (ds data' : list pixels) (a : ndarray) :
  length (px_shape d0) = 5%nat ->
  metadata node !! "affine" = Some (VArray a) ->
  shape a = [6; 6]%nat -> wf_ndarray a ->
  map_result slice_axis1 (d0 :: ds) = Ok data' ->
  label_layer node (d0 :: ds) (px_shape d0)
  = Ok (data', <["affine" := VArray (delete_row_col 1 a)]> (copy_known node ∅))
  /\ Forall2 (fun d d' => slice_axis1 d = Ok d') (d0 :: ds) data'.
Proof.
  intros Hdim Haffine Hshape Hwf Hslice.
  split; [|by apply map_result_Forall2].
  unfold label_layer. rewrite Hdim. simpl Nat.eqb. cbv iota.
  assert (Hget : getitem_affine (copy_known node ∅) = Ok (VArray a)).
  { unfold getitem_affine. rewrite copy_known_lookup, metadata_keys_affine, Haffine.
    reflexivity. }
  rewrite Hget.
  rewrite (reduce_affine_6x6 1 1 a Hshape Hwf eq_refl).
  unfold mbind, result_bind. rewrite Hslice. reflexivity.
Qed.

(** Without an [affine] entry the same node makes the label path
    raise, before any array is sliced. *)
Lemma label_layer_5d_no_affine (node : Node) (dat : list pixels) (shape : list nat) :
  length shape = 5%nat ->
  metadata node !! "affine" = None ->
  label_layer node dat shape = Raise KeyError.
Proof.
  intros Hdim Haffine. unfold label_layer. rewrite Hdim. simpl Nat.eqb. cbv iota.
  assert (Hget : getitem_affine (copy_known node ∅) = Raise KeyError).
  { unfold getitem_affine. rewrite copy_known_lookup, metadata_keys_affine, Haffine.
    reflexivity. }
  rewrite Hget. reflexivity.
Qed.

(** ** The reshaped table when no object has the key "index" *)

Lemma concat_singletons {A B : Type} (g : A -> B) (l : list A) :
  concat (map (fun x => [g x]) l) = map g l.
Proof. induction l as [|x t IH]; simpl; [reflexivity | by rewrite IH]. Qed.

Lemma transform_properties_aligned (p : props) :
  has_key "index" p = false ->
  exists cols : columns,
    transform_properties (Some p) = Ok (Some cols)
    /\ dict_get "index" cols = Some (map fst p)
    /\ (forall k, has_key k p = true ->
          dict_get k cols = Some (map (fun o => default VNone (dict_get k (snd o))) p))
    /\ (forall k l, dict_get k cols = Some l -> length l = length p).
Proof.
  intros Hindex.
  destruct (transform_properties_columns p) as (cols & Hrun & Hget).
  assert (Hidx : dict_get "index" cols = Some (map fst p)).
  { rewrite Hget. simpl. f_equal. unfold contribution. rewrite Hindex. simpl.
    apply concat_singletons. }
  assert (Hkey : forall k, has_key k p = true ->
            dict_get k cols = Some (map (fun o => default VNone (dict_get k (snd o))) p)).
  { intros k Hk. rewrite Hget, Hk, orb_true_r. f_equal.
    unfold contribution. rewrite Hk.
    destruct (String.eqb_spec k "index") as [->|Hne]; [congruence|]. simpl.
    apply concat_singletons. }
  exists cols. split; [exact Hrun|]. split; [exact Hidx|]. split; [exact Hkey|].
  intros k l Hl.
  destruct (String.eqb_spec k "index") as [->|Hne].
  - rewrite Hidx in Hl. inversion Hl. apply length_map.
  - destruct (has_key k p) eqn:Hk.
    + rewrite (Hkey k Hk) in Hl. inversion Hl. apply length_map.
    + rewrite Hget, Hk in Hl.
      destruct (String.eqb_spec k "index"); [congruence | discriminate].
Qed.
End Proofs.

(** * The properties on the sample inputs *)

(** The table of the module's docstring example. *)
Lemma transform_properties_example :
  transform_properties (Some sample_props)
  = Ok (Some [("x", [VInt 1; VInt 3]); ("y", [VInt 2; VNone]);
              ("index", [VStr "a"; VStr "b"])]).
Proof. reflexivity. Qed.

(** C4, at [{"a": {"index": 7, "x": 1}}]: the value 7 lands in the
    ["index"] column after the object id, so that column is neither the
    sequence of object ids nor as long as the column of ["x"]. *)
Theorem index_key_collision :
  transform_properties (Some props_with_index_key)
  = Ok (Some [("index", [VStr "a"; VInt 7]); ("x", [VInt 1])]).
Proof. reflexivity. Qed.

(** C3, at a label node whose first array has 5 dimensions and whose
    metadata has no [affine] entry: the transform raises KeyError and
    returns no record. *)
Theorem labels_without_affine_raise :
  transform_node labels_without_affine sample_store = (Raise KeyError, sample_store).
Proof. reflexivity. Qed.

(** The same node with a 6 by 6 [affine]. *)
Lemma labels_with_affine_record :
  match transform_node labels_with_affine sample_store with
  | (Ok (Some r), _) =>
      map px_shape (ld_data r) = [[1; 1; 4; 4]%nat]
      /\ ld_metadata r !! "affine" = Some (VArray (delete_row_col 1 affine6))
  | _ => False
  end.
Proof. vm_compute. split; reflexivity. Qed.

(** ** Channel detection on the samples *)

Lemma channel_axis_determined_witness :
  (exists k : nat,
     channel_axis_of two_channel_image [1; 2; 1; 4; 4]%nat sample_store
     = (Ok (Some (Z.of_nat k)), sample_store)
     /\ deref sample_store 0%nat !! k = Some (VStr "c")
     /\ forall j, (j < k)%nat -> deref sample_store 0%nat !! j <> Some (VStr "c"))
  /\ channel_axis_of string_axes_image [1; 2; 1; 4; 4]%nat sample_store
     = (Ok (Some 1), sample_store)
  /\ channel_axis_of legacy_image [1; 1; 1; 4; 4]%nat sample_store
     = (Ok None, sample_store)
  /\ channel_axis_of legacy_two_channel [1; 2; 1; 4; 4]%nat sample_store
     = (Ok (Some 1), sample_store).
Proof.
  split; [|split; [|split]].
  - apply (proj1 (channel_axis_determined (H:=stub) two_channel_image
                    [1; 2; 1; 4; 4]%nat sample_store) 0%nat).
    + reflexivity.
    + apply list_elem_of_lookup. exists 1%nat. reflexivity.
  - apply (proj1 (proj2 (channel_axis_determined (H:=stub) string_axes_image
                           [1; 2; 1; 4; 4]%nat sample_store)) "tczyx" 1%nat).
    + reflexivity.
    + reflexivity.
  - apply (proj1 (proj2 (proj2 (channel_axis_determined (H:=stub) legacy_image
                                  [1; 1; 1; 4; 4]%nat sample_store)))).
    + reflexivity.
    + reflexivity.
  - apply (proj2 (proj2 (proj2 (channel_axis_determined (H:=stub) legacy_two_channel
                                  [1; 2; 1; 4; 4]%nat sample_store))) 2%nat).
    + reflexivity.
    + reflexivity.
    + lia.
Defined.

(** ** The multi-channel path on the samples *)

Lemma multi_channel_affine_witness :
  exists md : gmap string (value string),
    image_layer two_channel_image [1; 2; 1; 4; 4]%nat sample_store = (Ok md, sample_store)
    /\ md !! "channel_axis" = Some (VInt 1)
    /\ md !! "affine" = Some (VArray (delete_row_col 1 affine6))
    /\ shape (delete_row_col 1 affine6) = [5; 5]%nat
    /\ forall r st',
         transform_node two_channel_image sample_store = (Ok (Some r), st') ->
         ld_metadata r = md.
Proof.
  apply (proj1 (proj2 (multi_channel_affine (H:=stub) two_channel_image
                         (zeros [1; 2; 1; 4; 4]%nat) [] sample_store 1
                         eq_refl eq_refl eq_refl)) affine6).
  - reflexivity.
  - reflexivity.
  - reflexivity.
  - lia.
Defined.

(** ** The single-channel path on the samples *)

Lemma single_channel_first_items_witness :
  exists md : gmap string (value string),
    single_channel legacy_image sample_store = (Ok md, sample_store)
    /\ md !! "name" = Some (VStr "nuclei")
    /\ md !! "visible" = None
    /\ forall r st',
         transform_node legacy_image sample_store = (Ok (Some r), st') ->
         ld_metadata r = md.
Proof.
  destruct (single_channel_first_items (H:=stub) legacy_image sample_store)
    as (md & Hrun & Hmd & Hrecord).
  exists md. split; [exact Hrun|].
  split; [rewrite Hmd; reflexivity|].
  split; [rewrite Hmd; reflexivity|].
  intros r st'. apply (Hrecord (zeros [1; 1; 1; 4; 4]%nat) []); reflexivity.
Defined.

(** ** The loop on the samples *)

Lemma one_record_per_data_node_witness :
  match f (transform sample_nodes) sample_store with
  | (Ok rs, _, _) =>
      Forall2 record_of [two_channel_image; legacy_image] rs /\ length rs = 2%nat
  | _ => False
  end.
Proof.
  destruct (f (transform sample_nodes) sample_store) as [[[rs|e] self'] st'] eqn:Hrun.
  - exact (proj1 (one_record_per_data_node (H:=stub) sample_nodes sample_store)
             rs self' st' Hrun).
  - vm_compute in Hrun. discriminate Hrun.
Defined.

Lemma reader_function_single_shot_witness :
  match f (transform sample_nodes) sample_store with
  | (Ok rs, self', st') => nodes self' = [] /\ f self' st' = (Ok [], self', st')
  | _ => False
  end.
Proof.
  destruct (f (transform sample_nodes) sample_store) as [[[rs|e] self'] st'] eqn:Hrun.
  - exact (proj2 (proj2 (reader_function_single_shot (H:=stub) sample_nodes sample_store
                           rs self' st' Hrun))).
  - vm_compute in Hrun. discriminate Hrun.
Defined.

(** ** The colormap pass on the samples *)

Lemma normalize_colormaps_idempotent_witness :
  normalize_colormaps (H:=stub) colormap_only realized_store = (Ok (), realized_store)
  /\ (normalize_colormaps (H:=stub) colormap_only;;
      normalize_colormaps (H:=stub) colormap_only) realized_store
     = normalize_colormaps (H:=stub) colormap_only realized_store.
Proof.
  apply (normalize_colormaps_idempotent (H:=stub) colormap_only realized_store 1%nat).
  - reflexivity.
  - repeat constructor.
Defined.

(** After a pass over names, a second pass is not idle: the objects
    that get_colormap returned are not instances of Colormap here, and
    the second pass hands them to the constructor. *)
Lemma second_pass_over_names :
  match normalize_colormaps (H:=stub) colormap_only sample_store with
  | (Ok _, st') =>
      deref st' 1%nat = [VColormap "viridis"; VColormap "fire"]
      /\ normalize_colormaps (H:=stub) colormap_only st' <> (Ok (), st')
  | _ => False
  end.
Proof.
  vm_compute. split; [reflexivity|]. intros Heq. inversion Heq.
Qed.



(** * Further properties of the module *)

Section Further.
Context `{External}.

(** ** transform_properties *)

(** X1: when no object has a key named "index", the table has the
    object ids under "index" in the order of the input, under every key
    of an object the values of the objects in that order with None for
    an object without the key, and every column is as long as the
    input. *)
Theorem properties_columns_aligned (p : props) :
  has_key "index" p = false ->
  exists cols : columns,
    transform_properties (Some p) = Ok (Some cols)
    /\ dict_get "index" cols = Some (map fst p)
    /\ (forall k, has_key k p = true ->
          dict_get k cols = Some (map (fun o => default VNone (dict_get k (snd o))) p))
    /\ (forall k l, dict_get k cols = Some l -> length l = length p).
Proof. apply transform_properties_aligned. Qed.

(** X2: transform_properties never raises, and the keys of the table it
    returns are "index" and the keys of the objects, nothing else. *)
Theorem properties_keys (p : props) :
  exists cols : columns,
    transform_properties (Some p) = Ok (Some cols)
    /\ forall k, k ∈ map fst cols <-> k = "index" \/ has_key k p = true.
Proof.
  destruct (transform_properties_columns p) as (cols & Hrun & Hget).
  exists cols. split; [exact Hrun|]. intros k.
  rewrite dict_get_keys, Hget.
  destruct (String.eqb_spec k "index") as [->|Hne]; simpl.
  - split; [by left | eauto].
  - destruct (has_key k p); split.
    + by right.
    + eauto.
    + intros [? ?]; discriminate.
    + intros [?|?]; congruence.
Qed.

(** X3: when an object has a key named "index", the column "index"
    takes two entries for every object, its id and then its own "index"
    value or None, while every other column takes one. *)
Theorem properties_index_key_interleaved (p : props) :
  has_key "index" p = true ->
  exists cols : columns,
    transform_properties (Some p) = Ok (Some cols)
    /\ dict_get "index" cols
       = Some (concat (map (fun o => [fst o; default VNone (dict_get "index" (snd o))]) p))
    /\ (forall k l, k <> "index" -> dict_get k cols = Some l -> length l = length p).
Proof.
  intros Hindex.
  destruct (transform_properties_columns p) as (cols & Hrun & Hget).
  exists cols. split; [exact Hrun|]. split.
  - rewrite Hget. simpl. unfold contribution. rewrite Hindex. reflexivity.
  - intros k l Hne Hl. rewrite Hget in Hl.
    destruct (String.eqb_spec k "index"); [congruence|]. simpl in Hl.
    destruct (has_key k p) eqn:Hk; [|discriminate].
    inversion Hl. unfold contribution. rewrite Hk.
    destruct (String.eqb_spec k "index"); [congruence|]. simpl.
    rewrite concat_singletons. apply length_map.
Qed.

(** ** The label path *)

Lemma copy_known_empty (node : Node) (x : string) :
  copy_known node ∅ !! x
  = if bool_decide (x ∈ METADATA_KEYS) then metadata node !! x else None.
Proof.
  rewrite copy_known_lookup. destruct (bool_decide (x ∈ METADATA_KEYS)); [|reflexivity].
  destruct (metadata node !! x); reflexivity.
Qed.

Lemma label_record (node : Node) (d0 : pixels) (ds : list pixels) (st st' : store)
    (r : LayerData) :
  data node = Some (d0 :: ds) -> load_Label node = true ->
  transform_node node st = (Ok (Some r), st') ->
  label_layer node (d0 :: ds) (px_shape d0) = Ok (ld_data r, ld_metadata r)
  /\ ld_layer_type r = "labels".
Proof.
  intros Hdata Hlabel Hrun.
  apply transform_node_inv in Hrun
    as (d0' & ds' & r' & Hr & Hdata' & _ & _ & Hpath);
    [|unfold has_data; by rewrite Hdata].
  inversion Hr; subst r'. rewrite Hdata in Hdata'. inversion Hdata'; subst d0' ds'.
  rewrite Hlabel in Hpath. exact Hpath.
Qed.

(** X4: a label node whose first array does not have 5 dimensions keeps
    its arrays as they are; its record has the kind "labels" and, as
    metadata, the recognized keys of the node with the node's values
    and no other key. *)
Theorem label_layer_other_dimensions (node : Node) (d0 : pixels) (ds : list pixels)
    (st : store) :
  data node = Some (d0 :: ds) -> load_Label node = true ->
  length (px_shape d0) <> 5%nat ->
  exists md : gmap string val,
    label_layer node (d0 :: ds) (px_shape d0) = Ok (d0 :: ds, md)
    /\ (forall x, md !! x = if bool_decide (x ∈ METADATA_KEYS)
                            then metadata node !! x else None)
    /\ forall r st', transform_node node st = (Ok (Some r), st') ->
         ld_data r = d0 :: ds /\ ld_metadata r = md /\ ld_layer_type r = "labels".
Proof.
  intros Hdata Hlabel Hdim.
  assert (Hlayer : label_layer node (d0 :: ds) (px_shape d0)
                   = Ok (d0 :: ds, copy_known node ∅)).
  { unfold label_layer.
    replace (length (px_shape d0) =? 5)%nat with false
      by (symmetry; by apply Nat.eqb_neq).
    reflexivity. }
  exists (copy_known node ∅). split; [exact Hlayer|].
  split; [apply copy_known_empty|].
  intros r st' Hrun.
  destruct (label_record node d0 ds st st' r Hdata Hlabel Hrun) as [Hlayer' Hkind].
  rewrite Hlayer in Hlayer'. inversion Hlayer'. done.
Qed.

Lemma map_result_slices (ds : list pixels) :
  Forall (fun d => exists n0 n1 rest, px_shape d = n0 :: S n1 :: rest) ds ->
  exists ds', map_result slice_axis1 ds = Ok ds'.
Proof.
  induction ds as [|d ds IH]; intros Hall; simpl; [by eexists|].
  apply Forall_cons in Hall as [(n0 & n1 & rest & Hd) Hall].
  destruct (IH Hall) as (ds' & Hds'). rewrite Hds'.
  unfold slice_axis1. rewrite Hd. simpl. by eexists.
Qed.

(** X5: a label node whose first array has 5 dimensions and whose
    [affine] is a 6 by 6 array, every array having a non-empty axis 1,
    gets each array replaced by its slice at index 0 of axis 1 and the
    matrix replaced by the 5 by 5 matrix without row 1 and column 1;
    the other recognized keys are copied. *)
Theorem label_layer_five_dimensions (node : Node) (d0 : pixels) (ds : list pixels)
    (a : ndarray) :
  length (px_shape d0) = 5%nat ->
  metadata node !! "affine" = Some (VArray a) ->
  shape a = [6; 6]%nat -> wf_ndarray a ->
  Forall (fun d => exists n0 n1 rest, px_shape d = n0 :: S n1 :: rest) (d0 :: ds) ->
  exists (data' : list pixels) (md : gmap string val),
    label_layer node (d0 :: ds) (px_shape d0) = Ok (data', md)
    /\ md !! "affine" = Some (VArray (delete_row_col 1 a))
    /\ shape (delete_row_col 1 a) = [5; 5]%nat
    /\ (forall x, x <> "affine" ->
          md !! x = if bool_decide (x ∈ METADATA_KEYS) then metadata node !! x else None)
    /\ Forall2 (fun d d' =>
                  px_shape d' = delete_at 1 (px_shape d)
                  /\ forall i js, px_at d' (i :: js) = px_at d (i :: O :: js))
               (d0 :: ds) data'.
Proof.
  intros Hdim Haffine Hshape Hwf Hall.
  destruct (map_result_slices (d0 :: ds) Hall) as (data' & Hslice).
  destruct (label_layer_5d node d0 ds data' a Hdim Haffine Hshape Hwf Hslice)
    as [Hlayer Hrel].
  eexists data', _. split; [exact Hlayer|].
  split; [apply lookup_insert_eq|].
  split; [by apply delete_row_col_shape|].
  split.
  - intros x Hne. rewrite lookup_insert_ne by congruence. apply copy_known_empty.
  - eapply Forall2_impl; [exact Hrel|]. intros d d' Hd.
    destruct (slice_axis1_spec d d' Hd) as (Hs & _ & Hat). by split.
Qed.

(** X6: a label node whose first array has 5 dimensions and whose
    metadata has no [affine] key makes the transform raise KeyError,
    with the store as it was. *)
Theorem label_five_dimensions_needs_affine (node : Node) (d0 : pixels)
    (ds : list pixels) (st : store) :
  data node = Some (d0 :: ds) -> load_Label node = true ->
  length (px_shape d0) = 5%nat ->
  metadata node !! "affine" = None ->
  transform_node node st = (Raise KeyError, st).
Proof.
  intros Hdata Hlabel Hdim Haffine.
  unfold transform_node. rewrite Hdata, Hlabel.
  unfold mbind at 1, M_bind at 1. unfold mbind at 1, M_bind at 1, lift at 1.
  rewrite (label_layer_5d_no_affine node (d0 :: ds) (px_shape d0) Hdim Haffine).
  reflexivity.
Qed.

(** ** The affine reduction *)

(** X7: the affine reduction raises IndexError for a channel axis
    outside -6 .. 5, whatever the affine value; for an axis in range it
    raises TypeError on a value that is neither an array nor a color
    map, and IndexError on an array whose first two axes are not both
    of size 6. *)
Theorem reduce_affine_failures (channel_axis : Z) :
  (py_index 6 channel_axis = None ->
   forall v, reduce_affine channel_axis v = Raise IndexError)
  /\ (forall k v, py_index 6 channel_axis = Some k ->
        (forall a, v <> VArray a) -> is_colormap_object v = false ->
        reduce_affine channel_axis (Ok v) = Raise TypeError)
  /\ (forall k a, py_index 6 channel_axis = Some k ->
        (forall rest, shape a <> 6%nat :: 6%nat :: rest) ->
        reduce_affine channel_axis (Ok (VArray a)) = Raise IndexError).
Proof.
  split; [|split].
  - intros Hidx v. unfold reduce_affine, seq_setitem.
    rewrite length_replicate, Hidx. reflexivity.
  - intros k v Hidx Hv Hcm. unfold reduce_affine, seq_setitem.
    rewrite length_replicate, Hidx.
    destruct v; try reflexivity. exfalso. by eapply Hv.
  - intros k a Hidx Hshape. unfold reduce_affine, seq_setitem.
    rewrite length_replicate, Hidx.
    unfold mbind, result_bind, py_mask_rows, fmap, result_fmap, ndarray_mask_rows.
    destruct (shape a) as [|d0 [|d1 rest]] eqn:Ha; [reflexivity..|].
    rewrite length_insert, length_replicate.
    destruct (Nat.eqb_spec 6 d0) as [<-|Hne]; [|reflexivity].
    unfold py_mask_cols, fmap, result_fmap, ndarray_mask_cols. cbn [shape].
    rewrite length_insert, length_replicate.
    destruct (Nat.eqb_spec 6 d1) as [<-|Hne]; [|reflexivity].
    exfalso. by eapply Hshape.
Qed.

(** ** Channel detection at the edges *)

Lemma find_str_absent (s : string) (items : list val) :
  VStr s ∉ items -> find_str s items = None.
Proof.
  intros Hnot. destruct (find_str s items) as [k|] eqn:Hfind; [|reflexivity].
  exfalso. apply Hnot. apply find_str_first in Hfind as [Hk _].
  apply list_elem_of_lookup. eauto.
Qed.

(** X8: when [axes] is present and does not contain "c", there is no
    channel axis and the image takes the single-channel path, whatever
    its shape: the legacy index is not consulted. *)
Theorem axes_without_channel (node : Node) (shape : list nat) (st : store) (l : loc) :
  metadata node !! "axes" = Some (VList l) ->
  VStr "c" ∉ deref st l ->
  channel_axis_of node shape st = (Ok None, st)
  /\ image_layer node shape st = single_channel node st.
Proof.
  intros Haxes Hnot.
  assert (Hca : channel_axis_of node shape st = (Ok None, st)).
  { unfold channel_axis_of. rewrite Haxes.
    unfold mbind, M_bind, reading, py_contains.
    rewrite (find_str_absent "c" _ Hnot).
    rewrite bool_decide_eq_false_2 by (intros [? ?]; discriminate).
    reflexivity. }
  split; [exact Hca | by apply image_layer_single].
Qed.

(** X9: without an [axes] key, an image whose first array has no index
    CHANNEL_DIMENSION in its shape makes the transform raise IndexError
    with the store as it was; a size 0 at that index gives no channel
    axis. *)
Theorem legacy_shape_bounds (node : Node) (shape : list nat) (st : store) :
  metadata node !! "axes" = None ->
  (py_index (length shape) CHANNEL_DIMENSION = None ->
   channel_axis_of node shape st = (Raise IndexError, st)
   /\ forall d0 ds, data node = Some (d0 :: ds) -> px_shape d0 = shape ->
        load_Label node = false ->
        transform_node node st = (Raise IndexError, st))
  /\ (seq_getitem shape CHANNEL_DIMENSION = Ok O ->
      channel_axis_of node shape st = (Ok None, st)).
Proof.
  intros Haxes. split.
  - intros Hidx.
    assert (Hca : channel_axis_of node shape st = (Raise IndexError, st)).
    { unfold channel_axis_of. rewrite Haxes.
      unfold mbind, M_bind, lift, seq_getitem. rewrite Hidx. reflexivity. }
    split; [exact Hca|].
    intros d0 ds Hdata Hshape Hlabel.
    unfold transform_node. rewrite Hdata, Hlabel.
    unfold mbind at 1, M_bind at 1. unfold mbind at 1, M_bind at 1.
    unfold image_layer. unfold mbind at 1, M_bind at 1.
    rewrite Hshape, Hca. reflexivity.
  - intros Hsize. unfold channel_axis_of. rewrite Haxes.
    unfold mbind, M_bind, lift. rewrite Hsize. reflexivity.
Qed.

(** ** What a record holds *)

(** X10: a record has the kind "labels" for a label node and "image"
    otherwise; its properties are the reshaped properties of the node,
    absent exactly when the node has none; an image node's arrays are
    passed on as they are. *)
Theorem record_kind_data_properties (node : Node) (st : store) (r : LayerData)
    (st' : store) :
  transform_node node st = (Ok (Some r), st') ->
  ld_layer_type r = (if load_Label node then "labels" else "image")
  /\ transform_properties (properties node) = Ok (ld_properties r)
  /\ (properties node = None <-> ld_properties r = None)
  /\ (load_Label node = false -> data node = Some (ld_data r)).
Proof.
  intros Hrun.
  assert (Hdata : has_data node = true).
  { destruct (has_data node) eqn:Hd; [reflexivity|].
    rewrite (transform_node_skip node st Hd) in Hrun. discriminate. }
  destruct (transform_node_inv node st _ st' Hdata Hrun)
    as (d0 & ds & r' & Hr & Hnode & _ & Hprops & Hpath).
  inversion Hr; subst r'. clear Hr.
  split; [destruct (load_Label node); [apply Hpath | apply Hpath]|].
  split; [exact Hprops|]. split.
  - destruct (properties node) as [p|].
    + destruct (transform_properties_columns p) as (cols & Hcols & _).
      rewrite Hcols in Hprops. inversion Hprops. split; discriminate.
    + simpl in Hprops. inversion Hprops. done.
  - intros Hlabel. rewrite Hlabel in Hpath. destruct Hpath as (_ & -> & _). exact Hnode.
Qed.

Lemma multi_channel_lookup (node : Node) (channel_axis : Z) (md : gmap string val)
    (x : string) :
  multi_channel node channel_axis = Ok md -> x <> "affine" ->
  md !! x = copy_known node (<["channel_axis" := VInt channel_axis]> ∅) !! x.
Proof.
  intros Hmulti Hne. unfold multi_channel in Hmulti.
  set (md0 := copy_known node (<["channel_axis" := VInt channel_axis]> ∅)) in *.
  destruct (md0 !! "affine") as [[]|];
    try (inversion Hmulti; subst; reflexivity);
    unfold mbind, result_bind in Hmulti;
    match type of Hmulti with
    | context [reduce_affine ?c ?v] => destruct (reduce_affine c v)
    end; inversion Hmulti; subst;
    rewrite lookup_insert_ne by congruence; reflexivity.
Qed.

Lemma label_layer_lookup (node : Node) (dat dat' : list pixels) (shape : list nat)
    (md : gmap string val) (x : string) :
  label_layer node dat shape = Ok (dat', md) -> x <> "affine" ->
  md !! x = copy_known node ∅ !! x.
Proof.
  intros Hlayer Hne. unfold label_layer in Hlayer.
  destruct (length shape =? 5)%nat.
  - unfold mbind, result_bind in Hlayer.
    match type of Hlayer with
    | context [reduce_affine ?c ?v] => destruct (reduce_affine c v)
    end; [|discriminate].
    destruct (map_result slice_axis1 dat); [|discriminate].
    inversion Hlayer. rewrite lookup_insert_ne by congruence. reflexivity.
  - inversion Hlayer. reflexivity.
Qed.

(** The metadata of a record, path by path. *)
Lemma record_metadata_cases (node : Node) (st : store) (r : LayerData) (st' : store) :
  transform_node node st = (Ok (Some r), st') ->
  (load_Label node = true
   /\ forall x, x <> "affine" -> ld_metadata r !! x = copy_known node ∅ !! x)
  \/ (load_Label node = false
      /\ exists channel_axis,
           forall x, x <> "affine" ->
             ld_metadata r !! x
             = copy_known node (<["channel_axis" := VInt channel_axis]> ∅) !! x)
  \/ (load_Label node = false
      /\ forall x, ld_metadata r !! x
                   = if bool_decide (x ∈ METADATA_KEYS)
                     then match metadata node !! x with
                          | Some v => match py_getitem0 v st with
                                      | Ok v0 => Some v0
                                      | Raise _ => None
                                      end
                          | None => None
                          end
                     else None).
Proof.
  intros Hrun.
  assert (Hdata : has_data node = true).
  { destruct (has_data node) eqn:Hd; [reflexivity|].
    rewrite (transform_node_skip node st Hd) in Hrun. discriminate. }
  destruct (transform_node_inv node st _ st' Hdata Hrun)
    as (d0 & ds & r' & Hr & Hnode & _ & _ & Hpath).
  inversion Hr; subst r'. clear Hr.
  destruct (load_Label node).
  - left. split; [reflexivity|]. destruct Hpath as [Hlayer _].
    intros x Hne. by eapply label_layer_lookup.
  - right. destruct Hpath as (Himage & _ & _).
    destruct (channel_axis_of_run node (px_shape d0) st) as (ca & Hca).
    unfold image_layer, mbind, M_bind in Himage. rewrite Hca in Himage.
    destruct ca as [[channel_axis|]|e]; [| |discriminate].
    + left. split; [reflexivity|]. exists channel_axis.
      unfold lift in Himage. inversion Himage as [Hmulti].
      intros x Hne. by apply multi_channel_lookup.
    + right. split; [reflexivity|].
      destruct (single_channel_loop node st METADATA_KEYS ∅) as (md & Hsingle & Hmd).
      unfold single_channel in Himage. rewrite Hsingle in Himage.
      inversion Himage; subst md. intros x. rewrite Hmd. reflexivity.
Qed.

Lemma record_kind_properties_of (node : Node) (st : store) (r : LayerData) (st' : store) :
  transform_node node st = (Ok (Some r), st') ->
  (is_Some (properties node) -> is_Some (ld_properties r))
  /\ (is_Some (ld_properties r) -> is_Some (properties node)).
Proof.
  intros Hrun.
  assert (Hdata : has_data node = true).
  { destruct (has_data node) eqn:Hd; [reflexivity|].
    rewrite (transform_node_skip node st Hd) in Hrun. discriminate. }
  destruct (transform_node_inv node st _ st' Hdata Hrun)
    as (d0 & ds & r' & Hr & _ & _ & Hprops & _).
  inversion Hr; subst r'. clear Hr.
  destruct (properties node) as [p|].
  - destruct (transform_properties_columns p) as (cols & Hcols & _).
    rewrite Hcols in Hprops. inversion Hprops. split; eauto.
  - simpl in Hprops. inversion Hprops. split; intros [? ?]; discriminate.
Qed.

Lemma metadata_keys_affine_in : "affine" ∈ METADATA_KEYS.
Proof. apply (bool_decide_eq_true_1 _ metadata_keys_affine). Qed.

(** X11: the metadata dict of a record has no key outside the
    recognized keys, except [channel_axis], which only an image record
    can have, and [properties], which it has exactly when the node has
    properties; in particular [axes] is never passed on. *)
Theorem record_metadata_keys (node : Node) (st : store) (r : LayerData) (st' : store) :
  transform_node node st = (Ok (Some r), st') ->
  (forall x, record_has_key r x ->
     x ∈ METADATA_KEYS
     \/ (x = "channel_axis" /\ load_Label node = false)
     \/ (x = "properties" /\ is_Some (properties node)))
  /\ (record_has_key r "properties" <-> is_Some (properties node))
  /\ ~ record_has_key r "axes".
Proof.
  intros Hrun.
  destruct (record_kind_properties_of node st r st' Hrun) as [Hsome Hnone].
  assert (Hkeys : forall x, is_Some (ld_metadata r !! x) ->
            x ∈ METADATA_KEYS \/ (x = "channel_axis" /\ load_Label node = false)).
  { intros x Hx.
    destruct (decide (x = "affine")) as [->|Hne]; [left; apply metadata_keys_affine_in|].
    destruct (record_metadata_cases node st r st' Hrun)
      as [[Hlabel Hmd] | [[Hlabel [ca Hmd]] | [Hlabel Hmd]]].
    - rewrite (Hmd x Hne), copy_known_empty in Hx.
      destruct (bool_decide (x ∈ METADATA_KEYS)) eqn:Hin.
      + left. apply (bool_decide_eq_true_1 _ Hin).
      + destruct Hx; discriminate.
    - rewrite (Hmd x Hne), copy_known_lookup in Hx.
      destruct (bool_decide (x ∈ METADATA_KEYS)) eqn:Hin.
      + left. apply (bool_decide_eq_true_1 _ Hin).
      + right. split; [|exact Hlabel].
        destruct (decide (x = "channel_axis")) as [->|Hne']; [reflexivity|].
        rewrite lookup_insert_ne in Hx by congruence.
        destruct Hx; discriminate.
    - rewrite Hmd in Hx.
      destruct (bool_decide (x ∈ METADATA_KEYS)) eqn:Hin.
      + left. apply (bool_decide_eq_true_1 _ Hin).
      + destruct Hx; discriminate. }
  assert (Hall : forall x, record_has_key r x ->
            x ∈ METADATA_KEYS
            \/ (x = "channel_axis" /\ load_Label node = false)
            \/ (x = "properties" /\ is_Some (properties node))).
  { intros x [Hx | [-> Hp]].
    - destruct (Hkeys x Hx) as [?|?]; [by left | right; by left].
    - right. right. split; [reflexivity | by apply Hnone]. }
  split; [exact Hall|]. split.
  - split.
    + intros Hkey. destruct (Hall "properties" Hkey) as [Hin | [[Heq _] | [_ Hp]]].
      * assert (Hno : bool_decide ("properties" ∈ METADATA_KEYS) = false) by reflexivity.
        destruct (bool_decide_eq_false_1 _ Hno Hin).
      * discriminate.
      * exact Hp.
    + intros Hp. right. split; [reflexivity | by apply Hsome].
  - intros Hkey. destruct (Hall "axes" Hkey) as [Hin | [[Heq _] | [Heq _]]].
    + assert (Hno : bool_decide ("axes" ∈ METADATA_KEYS) = false) by reflexivity.
      destruct (bool_decide_eq_false_1 _ Hno Hin).
    + discriminate.
    + discriminate.
Qed.

(** X12: a label record and a multi-channel image record carry, under
    every recognized key other than [affine], the very value of the
    node, and lack the key when the node lacks it. *)
Theorem record_values_verbatim (node : Node) (st : store) (r : LayerData) (st' : store) :
  transform_node node st = (Ok (Some r), st') ->
  load_Label node = true \/ ld_metadata r !! "channel_axis" <> None ->
  forall x, x ∈ METADATA_KEYS -> x <> "affine" ->
    ld_metadata r !! x = metadata node !! x.
Proof.
  intros Hrun Hpath x Hin Hne.
  assert (Hcopy : forall md0 : gmap string val,
            md0 !! x = None -> copy_known node md0 !! x = metadata node !! x).
  { intros md0 Hmd0. rewrite copy_known_lookup, (bool_decide_eq_true_2 _ Hin), Hmd0.
    destruct (metadata node !! x); reflexivity. }
  assert (Hnotca : x <> "channel_axis").
  { intros ->. exact (bool_decide_eq_false_1 _ metadata_keys_channel_axis Hin). }
  destruct (record_metadata_cases node st r st' Hrun)
    as [[Hlabel Hmd] | [[Hlabel [ca Hmd]] | [Hlabel Hmd]]].
  - rewrite (Hmd x Hne). by apply Hcopy.
  - rewrite (Hmd x Hne). apply Hcopy. by rewrite lookup_insert_ne.
  - exfalso. destruct Hpath as [Hl | Hca]; [congruence|].
    apply Hca. rewrite Hmd. reflexivity.
Qed.

(** ** The store, whatever the outcome *)

Lemma transform_node_store_cases (node : Node) (st : store)
    (res : result (option LayerData)) (st' : store) :
  transform_node node st = (res, st') ->
  st' = st \/ exists md res0, normalize_colormaps md st = (res0, st').
Proof.
  unfold transform_node.
  destruct (data node) as [[|d0 ds]|]; [intros Hrun; inversion Hrun; by left| |intros Hrun; inversion Hrun; by left].
  intros Hrun. unfold mbind at 1, M_bind at 1 in Hrun.
  destruct (load_Label node).
  - unfold mbind at 1, M_bind at 1, lift at 1 in Hrun.
    destruct (label_layer node (d0 :: ds) (px_shape d0)) as [[data' md]|e];
      [|inversion Hrun; by left].
    unfold mret at 1, M_ret at 1 in Hrun.
    unfold mbind at 1, M_bind at 1 in Hrun.
    destruct (normalize_colormaps md st) as [[[]|e] st1] eqn:Hnorm.
    + unfold mbind, M_bind, lift in Hrun.
      destruct (transform_properties (properties node)); inversion Hrun; subst; eauto.
    + inversion Hrun; subst; eauto.
  - unfold mbind at 1, M_bind at 1 in Hrun.
    destruct (image_layer_run node (px_shape d0) st) as (r0 & Hr). rewrite Hr in Hrun.
    destruct r0 as [md|e]; [|inversion Hrun; by left].
    unfold mret at 1, M_ret at 1 in Hrun.
    unfold mbind at 1, M_bind at 1 in Hrun.
    destruct (normalize_colormaps md st) as [[[]|e] st1] eqn:Hnorm.
    + unfold mbind, M_bind, lift in Hrun.
      destruct (transform_properties (properties node)); inversion Hrun; subst; eauto.
    + inversion Hrun; subst; eauto.
Qed.

Lemma kept_or_realized_refl (items : list val) : Forall2 kept_or_realized items items.
Proof. induction items; constructor; [by left | assumption]. Qed.

(** X13: whether it returns or raises, the transform of a node changes
    at most one stored list; that list keeps its length, and each of
    its entries is kept or, if it was not an instance of Colormap,
    replaced by a color map object. *)
Theorem transform_node_touches_one_list (node : Node) (st : store)
    (res : result (option LayerData)) (st' : store) :
  transform_node node st = (res, st') ->
  exists l : loc,
    (forall l', l' <> l -> st' !! l' = st !! l')
    /\ Forall2 kept_or_realized (deref st l) (deref st' l)
    /\ length (deref st' l) = length (deref st l).
Proof.
  intros Hrun.
  assert (Hsame : st' = st ->
            exists l : loc,
              (forall l', l' <> l -> st' !! l' = st !! l')
              /\ Forall2 kept_or_realized (deref st l) (deref st' l)
              /\ length (deref st' l) = length (deref st l)).
  { intros ->. exists O. split; [done|]. split; [apply kept_or_realized_refl | done]. }
  destruct (transform_node_store_cases node st res st' Hrun)
    as [Heq | (md & res0 & Hnorm)]; [by apply Hsame|].
  destruct (normalize_colormaps_spec md st res0 st' Hnorm) as (Hframe & Hlist).
  destruct (md !! "colormap") as [cms|] eqn:Hcms.
  - destruct cms as [| | | | | | |l];
      try (apply Hsame; apply map_eq; intros l'; apply Hframe; discriminate).
    exists l. destruct (Hlist l eq_refl) as [Hrel _].
    split; [intros l' Hne; apply Hframe; congruence|].
    split; [exact Hrel | symmetry; by eapply Forall2_length].
  - apply Hsame. apply map_eq. intros l'. apply Hframe. discriminate.
Qed.

(** ** Colormaps given by name on the single-channel path *)

(** X14: a single-channel image whose colormap value has a non-empty
    string as element [0] (a list of names, say) makes the transform
    raise with the store as it was: the pass runs over the characters
    of the name and cannot assign into a string. *)
Theorem single_channel_named_colormap_raises (node : Node) (d0 : pixels)
    (ds : list pixels) (st : store) (v : val) (c : Ascii.ascii) (s : string) :
  data node = Some (d0 :: ds) -> load_Label node = false ->
  channel_axis_of node (px_shape d0) st = (Ok None, st) ->
  metadata node !! "colormap" = Some v ->
  py_getitem0 v st = Ok (VStr (String c s)) ->
  exists e, transform_node node st = (Raise e, st).
Proof.
  intros Hdata Hlabel Hca Hcm Hfirst.
  destruct (single_channel_loop node st METADATA_KEYS ∅) as (md & Hsingle & Hmd).
  assert (Hmdcm : md !! "colormap" = Some (VStr (String c s))).
  { rewrite Hmd, metadata_keys_colormap, Hcm, Hfirst. reflexivity. }
  assert (Hnorm : exists e, normalize_colormaps md st = (Raise e, st)).
  { unfold normalize_colormaps. rewrite Hmdcm.
    unfold mbind, M_bind, raise.
    destruct (realize_run (VStr (String c EmptyString)) st) as (r0 & Hr0).
    rewrite Hr0. destruct r0; eauto. }
  destruct Hnorm as (e & Hnorm). exists e.
  unfold transform_node. rewrite Hdata, Hlabel.
  unfold mbind at 1, M_bind at 1. unfold mbind at 1, M_bind at 1.
  rewrite (image_layer_single _ _ _ Hca). unfold single_channel. rewrite Hsingle.
  unfold mret at 1, M_ret at 1. unfold mbind at 1, M_bind at 1.
  rewrite Hnorm. reflexivity.
Qed.

(** ** The reader function *)

Lemma f_loop_raise (ns : list Node) :
  forall (results : list LayerData) (st : store) (e : exn)
         (self' : ReaderFunction) (st' : store),
    f_loop ns results st = (Raise e, self', st') ->
    exists (pre : list Node) (node : Node) (rs1 : list LayerData) (st1 : store),
      ns = pre ++ node :: nodes self'
      /\ f_loop pre results st = (Ok rs1, transform [], st1)
      /\ transform_node node st1 = (Raise e, st').
Proof.
  induction ns as [|node rest IH]; intros results st e self' st' Hrun; simpl in Hrun.
  - discriminate.
  - destruct (transform_node node st) as [[[rv|]|e0] s1] eqn:Hnode.
    + destruct (IH _ _ _ _ _ Hrun) as (pre & node' & rs1 & st1 & -> & Hpre & Hfail).
      exists (node :: pre), node', rs1, st1. split; [reflexivity|].
      split; [|exact Hfail]. simpl. by rewrite Hnode.
    + destruct (IH _ _ _ _ _ Hrun) as (pre & node' & rs1 & st1 & -> & Hpre & Hfail).
      exists (node :: pre), node', rs1, st1. split; [reflexivity|].
      split; [|exact Hfail]. simpl. by rewrite Hnode.
    + inversion Hrun; subst. exists [], node, results, st.
      split; [reflexivity|]. split; [reflexivity | exact Hnode].
Qed.

(** X15: when a call of the reader function raises, it is the
    transform of one node that raised; the nodes before it were
    transformed, their records are lost with the call, and the iterator
    is left just behind the failing node. *)
Theorem reader_function_raise (ns : list Node) (st : store) (e : exn)
    (self' : ReaderFunction) (st' : store) :
  f (transform ns) st = (Raise e, self', st') ->
  exists (pre : list Node) (node : Node) (rs1 : list LayerData) (st1 : store),
    ns = pre ++ node :: nodes self'
    /\ f (transform pre) st = (Ok rs1, transform [], st1)
    /\ transform_node node st1 = (Raise e, st').
Proof. intros Hrun. by apply (f_loop_raise ns [] st e self' st'). Qed.

Lemma f_loop_results (ns : list Node) :
  forall (results : list LayerData) (st : store),
    f_loop ns results st
    = match f_loop ns [] st with
      | (Ok rs, self', st') => (Ok (results ++ rs), self', st')
      | (Raise e, self', st') => (Raise e, self', st')
      end.
Proof.
  induction ns as [|node rest IH]; intros results st; simpl.
  - by rewrite app_nil_r.
  - destruct (transform_node node st) as [[[rv|]|e0] s1]; [| apply IH | reflexivity].
    rewrite (IH (results ++ [rv])), (IH [rv]).
    destruct (f_loop rest [] s1) as [[[rs|e] self'] st']; [|reflexivity].
    by rewrite <- app_assoc.
Qed.

Lemma f_loop_app (ns1 ns2 : list Node) :
  forall (results : list LayerData) (st : store) (rs1 : list LayerData)
         (self1 : ReaderFunction) (st1 : store),
    f_loop ns1 results st = (Ok rs1, self1, st1) ->
    f_loop (ns1 ++ ns2) results st = f_loop ns2 rs1 st1.
Proof.
  induction ns1 as [|node rest IH]; intros results st rs1 self1 st1 Hrun; simpl in *.
  - by inversion Hrun.
  - destruct (transform_node node st) as [[[rv|]|e0] s1]; [| |discriminate];
      by eapply IH.
Qed.

(** X16: reading a sequence of nodes whose first part reads without
    raising gives the records of the first part followed by whatever
    the second part gives from the store the first part left. *)
Theorem reader_function_append (ns1 ns2 : list Node) (st : store)
    (rs1 : list LayerData) (self1 : ReaderFunction) (st1 : store) :
  f (transform ns1) st = (Ok rs1, self1, st1) ->
  f (transform (ns1 ++ ns2)) st
  = match f (transform ns2) st1 with
    | (Ok rs2, self2, st2) => (Ok (rs1 ++ rs2), self2, st2)
    | (Raise e, self2, st2) => (Raise e, self2, st2)
    end.
Proof.
  unfold f. simpl. intros Hrun.
  rewrite (f_loop_app ns1 ns2 [] st rs1 self1 st1 Hrun).
  apply f_loop_results.
Qed.

Lemma f_loop_filter (ns : list Node) :
  forall (results : list LayerData) (st : store),
    f_loop (List.filter has_data ns) results st
    = match f_loop ns results st with
      | (res, self', st') => (res, transform (List.filter has_data (nodes self')), st')
      end.
Proof.
  induction ns as [|node rest IH]; intros results st; simpl; [reflexivity|].
  destruct (has_data node) eqn:Hdata.
  - simpl. destruct (transform_node node st) as [[[rv|]|e0] s1]; [apply IH.. | reflexivity].
  - rewrite (transform_node_skip node st Hdata). apply IH.
Qed.

(** X17: the nodes without data are transparent: with them removed from
    the input, a call gives the same list or the same exception and the
    same store, and leaves what the iterator had left, without them. *)
Theorem reader_function_skips_silently (ns : list Node) (st : store) :
  f (transform (List.filter has_data ns)) st
  = match f (transform ns) st with
    | (res, self', st') => (res, transform (List.filter has_data (nodes self')), st')
    end.
Proof. unfold f. simpl. apply f_loop_filter. Qed.

(** ** The reader entry on one path or none *)

(** X18: a single path and a list of one path are treated alike: no
    warning, one resolution of that path, and a reader function over
    the nodes exactly when the path resolves; an empty list raises
    IndexError before anything is resolved. *)
Theorem napari_get_reader_one_or_none {Zarr : Type}
    (parse_url : string -> option Zarr) (Reader : Zarr -> list Node) (p : string) :
  napari_get_reader parse_url Reader (Path p)
  = ([ParseUrl p], Ok (match parse_url p with
                       | Some zarr => Some (transform (Reader zarr))
                       | None => None
                       end))
  /\ napari_get_reader parse_url Reader (Paths [p])
     = napari_get_reader parse_url Reader (Path p)
  /\ napari_get_reader parse_url Reader (Paths []) = ([], Raise IndexError).
Proof.
  unfold napari_get_reader. simpl.
  destruct (parse_url p); split; try split; reflexivity.
Qed.

(** ** A name that does not resolve *)

Lemma colormap_pass_unknown_name (l : loc) (bad : string) (e : exn) (tail : list val)
    (good : list string) :
  get_colormap bad = Raise e ->
  forall (cs : list BaseColormap) (idx : nat) (pre : list val) (st : store),
    Forall2 (fun name c => get_colormap name = Ok c) good cs ->
    deref st l = pre ++ map VStr good ++ VStr bad :: tail ->
    length pre = idx ->
    exists st' : store,
      colormap_pass l idx (map VStr good ++ VStr bad :: tail) st = (Raise e, st')
      /\ deref st' l = pre ++ map VColormap cs ++ VStr bad :: tail
      /\ forall l', l' <> l -> st' !! l' = st !! l'.
Proof.
  intros Hbad. induction good as [|name good IH]; intros cs idx pre st Hgood Hl Hlen.
  - inversion Hgood; subst. exists st. simpl.
    unfold mbind, M_bind, lift. rewrite Hbad. done.
  - inversion Hgood as [|? c ? cs' Hname Hgood']; subst.
    set (st1 := <[l := <[length pre := VColormap c]> (deref st l)]> st).
    assert (Hl1 : deref st1 l = (pre ++ [VColormap c]) ++ map VStr good ++ VStr bad :: tail).
    { unfold deref, st1. rewrite lookup_insert_eq. simpl.
      fold (deref st l). rewrite Hl.
      rewrite insert_app_r_alt by lia. rewrite Nat.sub_diag. simpl.
      by rewrite <- app_assoc. }
    destruct (IH cs' (S (length pre)) (pre ++ [VColormap c]) st1 Hgood' Hl1)
      as (st' & Hrun & Hl' & Hframe).
    { rewrite length_app. simpl. lia. }
    exists st'. split; [|split].
    + simpl. unfold mbind at 1, M_bind at 1. unfold mbind at 1, M_bind at 1.
      unfold lift at 1. rewrite Hname. unfold list_setitem at 1. exact Hrun.
    + rewrite Hl'. simpl. by rewrite <- app_assoc.
    + intros l' Hne. rewrite Hframe by exact Hne. unfold st1.
      by rewrite lookup_insert_ne.
Qed.

(** X19: when the colormap list holds names and one of them does not
    resolve, the pass raises what get_colormap raised, and the names
    before it stay replaced by their color maps in the stored list; the
    bad name and the entries after it are as they were, and so is every
    other list. *)
Theorem normalize_colormaps_unknown_name (md : gmap string val) (st : store) (l : loc)
    (good : list string) (cs : list BaseColormap) (bad : string) (e : exn)
    (tail : list val) :
  md !! "colormap" = Some (VList l) ->
  deref st l = map VStr good ++ VStr bad :: tail ->
  Forall2 (fun name c => get_colormap name = Ok c) good cs ->
  get_colormap bad = Raise e ->
  exists st' : store,
    normalize_colormaps md st = (Raise e, st')
    /\ deref st' l = map VColormap cs ++ VStr bad :: tail
    /\ forall l', l' <> l -> st' !! l' = st !! l'.
Proof.
  intros Hmd Hl Hgood Hbad.
  destruct (colormap_pass_unknown_name l bad e tail good Hbad cs O [] st Hgood Hl eq_refl)
    as (st' & Hrun & Hl' & Hframe).
  exists st'. split; [|by split].
  unfold normalize_colormaps. rewrite Hmd.
  unfold mbind, M_bind, reading. rewrite Hl. exact Hrun.
Qed.

(** ** Transforming a node again *)

Lemma colormap_pass_instances (l : loc) (items : list val) :
  forall (idx : nat) (st : store) (pre : list val) (st' : store),
    Forall (fun v => forall name, v <> VStr name) items ->
    deref st l = pre ++ items -> length pre = idx ->
    colormap_pass l idx items st = (Ok (), st') ->
    exists items' : list val,
      deref st' l = pre ++ items'
      /\ Forall (fun v => is_Colormap v = true) items'.
Proof.
  induction items as [|cm rest IH]; intros idx st pre st' Hnames Hl Hlen Hrun.
  - simpl in Hrun. inversion Hrun; subst. exists []. split; [done | constructor].
  - apply Forall_cons in Hnames as [Hcm_name Hnames].
    simpl in Hrun. unfold mbind at 1, M_bind at 1 in Hrun.
    destruct (is_Colormap cm) eqn:Hcm.
    + unfold mret, M_ret in Hrun.
      destruct (IH (S idx) st (pre ++ [cm]) st' Hnames) as (items' & Hl' & Hall).
      { by rewrite <- app_assoc. }
      { rewrite length_app. simpl. lia. }
      { exact Hrun. }
      exists (cm :: items'). split; [by rewrite <- app_assoc in Hl'|].
      constructor; [exact Hcm | exact Hall].
    + unfold mbind at 1, M_bind at 1 in Hrun.
      assert (Hreal : realize cm st = (new_Colormap st cm, st)).
      { destruct cm; try reflexivity. exfalso. by eapply Hcm_name. }
      rewrite Hreal in Hrun.
      destruct (new_Colormap st cm) as [c|e] eqn:Hnew; [|discriminate].
      unfold list_setitem in Hrun.
      set (st1 := <[l := <[idx := VColormap c]> (deref st l)]> st) in Hrun.
      assert (Hl1 : deref st1 l = (pre ++ [VColormap c]) ++ rest).
      { unfold deref, st1. rewrite lookup_insert_eq. simpl.
        fold (deref st l). rewrite Hl, <- Hlen.
        rewrite insert_app_r_alt by lia. rewrite Nat.sub_diag. simpl.
        by rewrite <- app_assoc. }
      destruct (IH (S idx) st1 (pre ++ [VColormap c]) st' Hnames Hl1)
        as (items' & Hl' & Hall).
      { rewrite length_app. simpl. lia. }
      { exact Hrun. }
      exists (VColormap c :: items'). split; [by rewrite <- app_assoc in Hl'|].
      constructor; [|exact Hall]. simpl. by eapply new_Colormap_instance.
Qed.

Lemma normalize_colormaps_again (md : gmap string val) (st st' : store) :
  (forall l, md !! "colormap" = Some (VList l) ->
     Forall (fun v => forall name, v <> VStr name) (deref st l)) ->
  normalize_colormaps md st = (Ok (), st') ->
  normalize_colormaps md st' = (Ok (), st').
Proof.
  intros Hnames Hrun.
  destruct (md !! "colormap") as [cms|] eqn:Hcms.
  2:{ unfold normalize_colormaps in *. rewrite Hcms in *. by inversion Hrun. }
  destruct cms as [| | | |s|a| |l];
    try (unfold normalize_colormaps in Hrun; rewrite Hcms in Hrun; discriminate).
  - unfold normalize_colormaps in *. rewrite Hcms in *.
    destruct s as [|c s]; [by inversion Hrun|].
    unfold mbind, M_bind, raise in Hrun.
    destruct (realize_run (VStr (String c EmptyString)) st) as (r & Hr).
    rewrite Hr in Hrun. destruct r; discriminate.
  - unfold normalize_colormaps in *. rewrite Hcms in *.
    destruct (shape a) as [|[|n] rest]; [discriminate | by inversion Hrun |].
    unfold mbind, M_bind, raise, lift in Hrun.
    destruct (ndarray_getitem0 a) as [row|e]; [|discriminate].
    destruct (realize_run (VArray row) st) as (r & Hr).
    rewrite Hr in Hrun. destruct r; discriminate.
  - assert (Hpass : colormap_pass l 0 (deref st l) st = (Ok (), st')).
    { unfold normalize_colormaps in Hrun. rewrite Hcms in Hrun. exact Hrun. }
    destruct (colormap_pass_instances l (deref st l) 0 st [] st'
                (Hnames l eq_refl) eq_refl eq_refl Hpass) as (items' & Hl' & Hall).
    apply (normalize_colormaps_realized md l st' Hcms). by rewrite Hl'.
Qed.

Lemma channel_axis_of_frame (node : Node) (shape : list nat) (st st' : store) :
  (forall l, metadata node !! "axes" = Some (VList l) -> deref st' l = deref st l) ->
  fst (channel_axis_of node shape st') = fst (channel_axis_of node shape st).
Proof.
  intros Hframe. unfold channel_axis_of.
  destruct (metadata node !! "axes") as [axes|].
  - unfold mbind, M_bind, reading.
    assert (Hc : py_contains "c" axes st' = py_contains "c" axes st).
    { destruct axes; try reflexivity. simpl. by rewrite (Hframe l eq_refl). }
    assert (Hi : py_index_of "c" axes st' = py_index_of "c" axes st).
    { destruct axes; try reflexivity. simpl. by rewrite (Hframe l eq_refl). }
    rewrite Hc. destruct (py_contains "c" axes st) as [[|]|e]; [|reflexivity..].
    rewrite Hi. destruct (py_index_of "c" axes st); reflexivity.
  - unfold mbind, M_bind, lift.
    destruct (seq_getitem shape CHANNEL_DIMENSION) as [size|e]; [|reflexivity].
    destruct (1 <? size)%nat; reflexivity.
Qed.

Lemma transform_node_build (node : Node) (d0 : pixels) (ds dat : list pixels)
    (md : gmap string val) (cols : option columns) (st st' : store) :
  data node = Some (d0 :: ds) ->
  (if load_Label node
   then label_layer node (d0 :: ds) (px_shape d0) = Ok (dat, md)
   else image_layer node (px_shape d0) st = (Ok md, st) /\ dat = d0 :: ds) ->
  normalize_colormaps md st = (Ok (), st') ->
  transform_properties (properties node) = Ok cols ->
  transform_node node st
  = (Ok (Some {| ld_data := dat; ld_metadata := md; ld_properties := cols;
                 ld_layer_type := if load_Label node then "labels" else "image" |}),
     st').
Proof.
  intros Hdata Hpath Hnorm Hprops.
  unfold transform_node. rewrite Hdata.
  unfold mbind at 1, M_bind at 1.
  destruct (load_Label node).
  - unfold mbind at 1, M_bind at 1, lift at 1. rewrite Hpath.
    unfold mret at 1, M_ret at 1. unfold mbind at 1, M_bind at 1. rewrite Hnorm.
    unfold mbind, M_bind, lift. rewrite Hprops. reflexivity.
  - destruct Hpath as [Himage ->].
    unfold mbind at 1, M_bind at 1. rewrite Himage.
    unfold mret at 1, M_ret at 1. unfold mbind at 1, M_bind at 1. rewrite Hnorm.
    unfold mbind, M_bind, lift. rewrite Hprops. reflexivity.
Qed.

(** X20: transforming a node a second time, in the store the first
    transform left, returns the same record and changes nothing more,
    provided the colormap list of the record held no names: this holds
    for a label node, and for a multi-channel image whose [axes] list
    is not the list it carries under [colormap]. *)
Theorem transform_node_again (node : Node) (st : store) (r : LayerData) (st' : store) :
  transform_node node st = (Ok (Some r), st') ->
  load_Label node = true
  \/ (ld_metadata r !! "channel_axis" <> None
      /\ forall l, metadata node !! "axes" = Some (VList l) ->
           ld_metadata r !! "colormap" <> Some (VList l)) ->
  (forall l, ld_metadata r !! "colormap" = Some (VList l) ->
     Forall (fun v => forall name, v <> VStr name) (deref st l)) ->
  transform_node node st' = (Ok (Some r), st').
Proof.
  intros Hrun Hcase Hnames.
  assert (Hdata : has_data node = true).
  { destruct (has_data node) eqn:Hd; [reflexivity|].
    rewrite (transform_node_skip node st Hd) in Hrun. discriminate. }
  destruct (transform_node_inv node st _ st' Hdata Hrun)
    as (d0 & ds & r' & Hr & Hnode & Hnorm & Hprops & Hpath).
  inversion Hr; subst r'. clear Hr.
  pose proof (normalize_colormaps_again _ _ _ Hnames Hnorm) as Hnorm'.
  assert (Hbuild : if load_Label node
                   then label_layer node (d0 :: ds) (px_shape d0)
                        = Ok (ld_data r, ld_metadata r)
                   else image_layer node (px_shape d0) st' = (Ok (ld_metadata r), st')
                        /\ ld_data r = d0 :: ds).
  { destruct (load_Label node) eqn:Hlabel; [apply Hpath|].
    destruct Hpath as (Himage & Hd & _). split; [|exact Hd].
    destruct Hcase as [?|[Hchan Haxes]]; [discriminate|].
    destruct (channel_axis_of_run node (px_shape d0) st) as (ca & Hca).
    destruct (channel_axis_of_run node (px_shape d0) st') as (ca' & Hca').
    assert (Heq : ca' = ca).
    { pose proof (channel_axis_of_frame node (px_shape d0) st st') as Hf.
      rewrite Hca, Hca' in Hf. apply Hf. intros l Hl. unfold deref.
      destruct (normalize_colormaps_spec _ _ _ _ Hnorm) as (Hframe & _).
      rewrite (Hframe l); [reflexivity|]. by apply Haxes. }
    subst ca'.
    unfold image_layer, mbind, M_bind in Himage |- *. rewrite Hca in Himage. rewrite Hca'.
    destruct ca as [[channel_axis|]|e]; [| |discriminate].
    - unfold lift in *. inversion Himage as [Hmulti]. by rewrite Hmulti.
    - exfalso. apply Hchan.
      destruct (single_channel_loop node st METADATA_KEYS ∅) as (md & Hsingle & Hmd).
      unfold single_channel in Himage. rewrite Hsingle in Himage.
      inversion Himage; subst md. rewrite Hmd. reflexivity. }
  rewrite (transform_node_build node d0 ds (ld_data r) (ld_metadata r) (ld_properties r)
             st' st' Hnode Hbuild Hnorm' Hprops).
  assert (Hkind : ld_layer_type r = if load_Label node then "labels" else "image").
  { destruct (load_Label node); apply Hpath. }
  destruct r. simpl in *. by rewrite Hkind.
Qed.
End Further.

(** * The further properties on the sample inputs *)

Lemma properties_columns_aligned_witness :
  exists cols : @columns stub,
    transform_properties (Some sample_props) = Ok (Some cols)
    /\ dict_get "index" cols = Some [VStr "a"; VStr "b"]
    /\ dict_get "y" cols = Some [VInt 2; VNone].
Proof.
  destruct (properties_columns_aligned (H:=stub) sample_props eq_refl)
    as (cols & Hrun & Hindex & Hkey & _).
  exists cols. split; [exact Hrun|]. split; [exact Hindex|].
  exact (Hkey "y" eq_refl).
Defined.

Lemma properties_index_key_interleaved_witness :
  exists cols : @columns stub,
    transform_properties (Some props_with_index_key2) = Ok (Some cols)
    /\ dict_get "index" cols = Some [VStr "a"; VInt 7; VStr "b"; VNone]
    /\ forall l, dict_get "x" cols = Some l -> length l = 2%nat.
Proof.
  destruct (properties_index_key_interleaved (H:=stub) props_with_index_key2 eq_refl)
    as (cols & Hrun & Hindex & Hother).
  exists cols. split; [exact Hrun|]. split; [exact Hindex|].
  intros l. apply Hother. discriminate.
Defined.

Lemma label_layer_other_dimensions_witness :
  exists md : gmap string (value string),
    label_layer labels_2d [zeros [4; 4]%nat] [4; 4]%nat = Ok ([zeros [4; 4]%nat], md)
    /\ md !! "name" = Some (VStr "cells")
    /\ md !! "axes" = None.
Proof.
  destruct (label_layer_other_dimensions (H:=stub) labels_2d (zeros [4; 4]%nat) []
              sample_store eq_refl eq_refl)
    as (md & Hlayer & Hmd & _).
  - simpl. lia.
  - exists md. split; [exact Hlayer|]. split; rewrite Hmd; reflexivity.
Defined.

Lemma label_layer_five_dimensions_witness :
  exists (data' : list pixels) (md : gmap string (value string)),
    label_layer labels_with_affine [zeros [1; 1; 1; 4; 4]%nat] [1; 1; 1; 4; 4]%nat
    = Ok (data', md)
    /\ md !! "affine" = Some (VArray (delete_row_col 1 affine6))
    /\ Forall2 (fun d d' => px_shape d' = delete_at 1 (px_shape d))
               [zeros [1; 1; 1; 4; 4]%nat] data'.
Proof.
  destruct (label_layer_five_dimensions (H:=stub) labels_with_affine
              (zeros [1; 1; 1; 4; 4]%nat) [] affine6 eq_refl eq_refl eq_refl eq_refl)
    as (data' & md & Hlayer & Haffine & _ & _ & Hslices).
  - constructor; [|constructor]. by exists 1%nat, O, [1; 4; 4]%nat.
  - exists data', md. split; [exact Hlayer|]. split; [exact Haffine|].
    eapply Forall2_impl; [exact Hslices|]. by intros d d' [Hs _].
Defined.

Lemma label_five_dimensions_needs_affine_witness :
  transform_node labels_without_affine realized_store = (Raise KeyError, realized_store).
Proof.
  apply (label_five_dimensions_needs_affine (H:=stub) labels_without_affine
           (zeros [1; 1; 1; 4; 4]%nat) []); reflexivity.
Defined.

Lemma reduce_affine_failures_witness :
  reduce_affine (H:=stub) 7 (Ok (VArray affine6)) = Raise IndexError
  /\ reduce_affine (H:=stub) 1 (Ok (VList 2%nat)) = Raise TypeError
  /\ reduce_affine (H:=stub) 1 (Ok (VArray (delete_row_col 1 affine6))) = Raise IndexError.
Proof.
  destruct (reduce_affine_failures (H:=stub) 7) as (Hrange & _ & _).
  destruct (reduce_affine_failures (H:=stub) 1) as (_ & Htype & Hshape).
  split; [|split].
  - apply Hrange. reflexivity.
  - apply (Htype 1%nat); [reflexivity | discriminate | reflexivity].
  - apply (Hshape 1%nat); [reflexivity | discriminate].
Defined.

Lemma axes_without_channel_witness :
  channel_axis_of zyx_image [3; 4; 4]%nat zyx_store = (Ok None, zyx_store)
  /\ image_layer zyx_image [3; 4; 4]%nat zyx_store = single_channel zyx_image zyx_store.
Proof.
  apply (axes_without_channel (H:=stub) zyx_image [3; 4; 4]%nat zyx_store O).
  - reflexivity.
  - intros Hin. apply list_elem_of_lookup in Hin as [i Hi].
    do 3 (destruct i as [|i]; [discriminate Hi|]). discriminate Hi.
Defined.

Lemma legacy_shape_bounds_witness :
  transform_node legacy_1d sample_store = (Raise IndexError, sample_store)
  /\ channel_axis_of legacy_1d [4; 0; 4]%nat sample_store = (Ok None, sample_store).
Proof.
  split.
  - apply (proj2 (proj1 (legacy_shape_bounds (H:=stub) legacy_1d [8]%nat sample_store
                           eq_refl) eq_refl) (zeros [8]%nat) []); reflexivity.
  - apply (proj2 (legacy_shape_bounds (H:=stub) legacy_1d [4; 0; 4]%nat sample_store
                    eq_refl)). reflexivity.
Defined.

Lemma record_kind_data_properties_witness :
  match transform_node labels_2d sample_store with
  | (Ok (Some r), _) =>
      ld_layer_type r = "labels"
      /\ transform_properties (properties labels_2d) = Ok (ld_properties r)
  | _ => False
  end.
Proof.
  destruct (transform_node labels_2d sample_store) as [[[r|]|e] st'] eqn:Hrun;
    try (vm_compute in Hrun; discriminate Hrun).
  destruct (record_kind_data_properties (H:=stub) labels_2d sample_store r st' Hrun)
    as (Hkind & Hprops & _).
  split; [exact Hkind | exact Hprops].
Defined.

Lemma record_metadata_keys_witness :
  match transform_node labels_2d sample_store with
  | (Ok (Some r), _) => record_has_key r "properties" /\ ~ record_has_key r "axes"
  | _ => False
  end.
Proof.
  destruct (transform_node labels_2d sample_store) as [[[r|]|e] st'] eqn:Hrun;
    try (vm_compute in Hrun; discriminate Hrun).
  destruct (record_metadata_keys (H:=stub) labels_2d sample_store r st' Hrun)
    as (_ & Hprops & Haxes).
  split; [|exact Haxes]. apply Hprops. simpl. eauto.
Defined.

Lemma record_values_verbatim_witness :
  match transform_node labels_2d sample_store with
  | (Ok (Some r), _) => ld_metadata r !! "name" = Some (VStr "cells")
  | _ => False
  end.
Proof.
  destruct (transform_node labels_2d sample_store) as [[[r|]|e] st'] eqn:Hrun;
    try (vm_compute in Hrun; discriminate Hrun).
  apply (record_values_verbatim (H:=stub) labels_2d sample_store r st' Hrun).
  - by left.
  - apply list_elem_of_lookup. by exists O.
  - discriminate.
Defined.

Lemma transform_node_touches_one_list_witness :
  exists l : loc,
    (forall l', l' <> l ->
       snd (transform_node two_channel_image sample_store) !! l' = sample_store !! l')
    /\ Forall2 (kept_or_realized (H:=stub)) (deref sample_store l)
         (deref (snd (transform_node two_channel_image sample_store)) l)
    /\ length (deref (snd (transform_node two_channel_image sample_store)) l)
       = length (deref sample_store l).
Proof.
  apply (transform_node_touches_one_list (H:=stub) two_channel_image sample_store
           (fst (transform_node two_channel_image sample_store))).
  apply surjective_pairing.
Defined.

Lemma single_channel_named_colormap_raises_witness :
  exists e, transform_node legacy_named_colormap sample_store = (Raise e, sample_store).
Proof.
  eapply (single_channel_named_colormap_raises (H:=stub) legacy_named_colormap
            (zeros [1; 1; 1; 4; 4]%nat) [] sample_store (VList 1%nat));
    reflexivity.
Defined.

Lemma reader_function_raise_witness :
  match f (transform failing_nodes) sample_store with
  | (Raise e, self', st') =>
      exists (pre : list (@Node stub)) (node : @Node stub)
             (rs1 : list LayerData) (st1 : gmap loc (list (value string))),
        failing_nodes = pre ++ node :: nodes self'
        /\ f (transform pre) sample_store = (Ok rs1, transform [], st1)
        /\ transform_node node st1 = (Raise e, st')
  | _ => False
  end.
Proof.
  destruct (f (transform failing_nodes) sample_store) as [[[rs|e] self'] st'] eqn:Hrun.
  - vm_compute in Hrun. discriminate Hrun.
  - exact (reader_function_raise (H:=stub) failing_nodes sample_store e self' st' Hrun).
Defined.

Lemma reader_function_append_witness :
  match f (transform sample_nodes) sample_store with
  | (Ok rs1, _, st1) =>
      f (transform (sample_nodes ++ [labels_2d])) sample_store
      = match f (transform [labels_2d]) st1 with
        | (Ok rs2, self2, st2) => (Ok (rs1 ++ rs2), self2, st2)
        | (Raise e, self2, st2) => (Raise e, self2, st2)
        end
  | _ => False
  end.
Proof.
  destruct (f (transform sample_nodes) sample_store) as [[[rs1|e] self1] st1] eqn:Hrun.
  - exact (reader_function_append (H:=stub) sample_nodes [labels_2d] sample_store
             rs1 self1 st1 Hrun).
  - vm_compute in Hrun. discriminate Hrun.
Defined.

Lemma normalize_colormaps_unknown_name_witness :
  exists st' : gmap loc (list (value string)),
    normalize_colormaps (H:=strict_stub) colormap_only unknown_name_store
    = (Raise KeyError, st')
    /\ deref st' 1%nat = [VColormap "viridis"; VStr "magma"; VStr "fire"]
    /\ forall l', l' <> 1%nat -> st' !! l' = unknown_name_store !! l'.
Proof.
  apply (normalize_colormaps_unknown_name (H:=strict_stub) colormap_only
           unknown_name_store 1%nat ["viridis"] ["viridis"] "magma" KeyError
           [VStr "fire"]).
  - reflexivity.
  - reflexivity.
  - constructor; [reflexivity | constructor].
  - reflexivity.
Defined.

Lemma transform_node_again_witness :
  match transform_node stops_image stops_store with
  | (Ok (Some r), st') => transform_node stops_image st' = (Ok (Some r), st')
  | _ => False
  end.
Proof.
  destruct (transform_node stops_image stops_store) as [[[r|]|e] st'] eqn:Hrun;
    try (vm_compute in Hrun; discriminate Hrun).
  assert (Hr : fst (transform_node stops_image stops_store) = Ok (Some r))
    by (by rewrite Hrun).
  vm_compute in Hr. injection Hr as Hr'.
  apply (transform_node_again (H:=stub) stops_image stops_store r st' Hrun).
  - right. rewrite <- Hr'. split.
    + vm_compute. discriminate.
    + intros l Hl. vm_compute in Hl. inversion Hl. vm_compute. discriminate.
  - intros l Hl. rewrite <- Hr' in Hl. vm_compute in Hl. inversion Hl.
    repeat constructor; discriminate.
Defined.
